(** * superset/tasks/schedules.py: scheduled e-mail and chat reports

    A shallow embedding of the report scheduler: the cron window expander
    [next_schedules], the content builders [_generate_report_content] and
    [_get_slice_data], the dispatchers [_deliver_email] and [_deliver_slack],
    the webdriver life cycle around [deliver_dashboard] and
    [_get_slice_visualization], and the celery job [schedule_email_report].

    Instants are POSIX seconds in [Z] (croniter computes on whole-second
    timestamps), so [timedelta(seconds=1)] is [1] and [timedelta(days=1)] is
    [86400].  Calls that leave the process (the webdriver, SMTP, the chat API,
    the store, the logger, [time.sleep]) are recorded in a trace and answered
    by an environment that may look at the trace so far. *)

From Stdlib Require Import ZArith List Bool String Ascii Lia Sorted.
From stdpp Require Import base tactics option list strings gmap.
Import ListNotations.
Local Open Scope string_scope.
Local Open Scope list_scope.
Local Open Scope Z_scope.

(** ** The cron evaluator (package [croniter], taken as an interface) *)

(** [croniter.croniter(crontab, t)] is an iterator whose successive values are
    the instants matched by the expression that lie strictly after the current
    one.  [fires] is the set of matched instants, [get_next] one step of the
    iterator. *)
Record croniter : Type := Croniter {
  fires : Z -> bool;
  get_next : Z -> Z
}.

Record croniter_ok (c : croniter) : Prop := CroniterOk {
  get_next_gt : forall t, t < get_next c t;
  get_next_fires : forall t, fires c (get_next c t) = true;
  get_next_least : forall t u, t < u -> fires c u = true -> get_next c t <= u
}.

(** An expression that matches the multiples of [n] seconds. *)
Definition every (n : Z) : croniter :=
  {| fires := fun t => t mod n =? 0;
     get_next := fun t => (t / n + 1) * n |}.

(** The expression ["0 * * * *"]: every full hour. *)
Definition hourly : croniter := every 3600.

(** The expression ["* * * * *"]: every full minute. *)
Definition minutely : croniter := every 60.

(** ** next_schedules *)

Definition one_second : Z := 1.
Definition one_day : Z := 86400.

(** The [for eta in crons.all_next(datetime)] loop.  [cur] is the iterator's
    current instant, [previous] the last yielded one.  The result is the list
    of yielded instants; [None] only when [fuel] iterations did not reach the
    [break]. *)
Fixpoint all_next_loop (crons : croniter) (fuel : nat)
    (cur previous start_at stop_at resolution : Z) : option (list Z) :=
  match fuel with
  | O => None
  | S fuel' =>
      let eta := get_next crons cur in
      if stop_at <=? eta then Some []
      else if eta <? start_at then
        all_next_loop crons fuel' eta previous start_at stop_at resolution
      else if eta - previous <? resolution then
        all_next_loop crons fuel' eta previous start_at stop_at resolution
      else
        cons eta <$>
          all_next_loop crons fuel' eta eta start_at stop_at resolution
  end.

Definition next_schedules (crontab : croniter)
    (start_at stop_at : Z) (resolution : Z) : option (list Z) :=
  let cur := start_at - one_second in
  let previous := start_at - one_day in
  all_next_loop crontab (S (Z.to_nat (stop_at - start_at)))
    cur previous start_at stop_at resolution.

(** Consecutive elements of a list are related by [R]. *)
Fixpoint consecutive (R : Z -> Z -> Prop) (l : list Z) : Prop :=
  match l with
  | a :: (b :: _) as tl => R a b /\ consecutive R tl
  | _ => True
  end.


(** ** Values of the program *)

(** Python [bytes] and [str] are both sequences of characters here. *)
Definition bytes : Type := string.

Inductive EmailDeliveryType : Type := attachment | inline.
Inductive SliceEmailReportFormat : Type := visualization | data | unknown_format.
Inductive ScheduleType : Type := dashboard | slice | unknown_type.

(** Rocq's [string] has its own notion of emptiness; Python's truth value of
    an [Optional[str]] is [False] on [None] and on the empty string. *)
Definition truthy (o : option string) : bool :=
  match o with
  | Some (String _ _) => true
  | _ => false
  end.

(** [a or b] on [Optional[str]] operands. *)
Definition py_or (a b : option string) : option string :=
  if truthy a then a else b.

(** [str(x)] inside an f-string, for an [Optional[str]]. *)
Definition str_of (o : option string) : string :=
  match o with Some s => s | None => "None" end.

(** [bytes.split(sep)] for a one-byte separator: empty fields are kept. *)
Fixpoint split_on (sep : ascii) (s : string) : list string :=
  match s with
  | EmptyString => [EmptyString]
  | String c s' =>
      if Ascii.eqb c sep then EmptyString :: split_on sep s'
      else match split_on sep s' with
           | h :: t => String c h :: t
           | [] => [String c EmptyString]
           end
  end.

Definition LF : ascii := Ascii.ascii_of_nat 10.
Definition CR : ascii := Ascii.ascii_of_nat 13.

(** [bytes.splitlines()]: lines end at LF, CR or CR LF; the terminators are
    dropped and a final terminator opens no new line. *)
Fixpoint splitlines (s : string) : list string :=
  match s with
  | EmptyString => []
  | String c s' =>
      if Ascii.eqb c LF then EmptyString :: splitlines s'
      else if Ascii.eqb c CR then
        match s' with
        | String c' s'' =>
            if Ascii.eqb c' LF then EmptyString :: splitlines s''
            else EmptyString :: splitlines s'
        | EmptyString => [EmptyString]
        end
      else match splitlines s' with
           | h :: t => String c h :: t
           | [] => [String c EmptyString]
           end
  end.

(** [s[1:-1]] *)
Definition strip_ends (s : string) : string :=
  String.substring 1 (String.length s - 2) s.

(** E-mail bodies are instances of message templates; the catalogue lookup of
    [__] and the Jinja rendering stay symbolic. *)
Inductive html : Type :=
  | explore_link (url : string)
  | explore_link_with_image (url msgid : string)
  | slice_data_html (columns : list bytes) (rows : list (list bytes))
      (name link : string).

(** The chat message: the title in bold and the link to the live object. *)
Inductive markdown : Type :=
  | explore_markdown (name url : string).

Record ReportContent : Type := mkReportContent {
  body : html;
  data_ : option (gmap string bytes);
  images : option (gmap string bytes);
  slack_message : markdown;
  slack_attachment : bytes
}.

Record Dashboard : Type := mkDashboard {
  dashboard_pk : Z;
  dashboard_title : string
}.

Record Slice : Type := mkSlice {
  slice_pk : Z;
  slice_name : string
}.

(** A row of [DashboardEmailSchedule] or [SliceEmailSchedule]. *)
Record Schedule : Type := mkSchedule {
  active : bool;
  recipients : option string;
  slack_channel : option string;
  delivery_type : EmailDeliveryType;
  deliver_as_group : bool;
  dashboard_id : Z;
  slice_id : Z;
  email_format : SliceEmailReportFormat
}.

(** The options object of a driver: the driver it belongs to and the command
    line arguments added to it. *)
Record Options : Type := mkOptions {
  options_class : string;
  arguments : list string
}.

(** [options.add_argument(argument)] *)
Definition add_argument (options : Options) (argument : string) : Options :=
  mkOptions (options_class options) (arguments options ++ [argument]).

(** A keyword argument of a driver constructor: an options object, or any
    other value. *)
Inductive kwarg : Type :=
  | kw_options (options : Options)
  | kw_value (repr : string).

Record config : Type := mkConfig {
  EMAIL_REPORT_BCC_ADDRESS : option string;
  SCHEDULED_EMAIL_DEBUG_MODE : bool;
  SMTP_MAIL_FROM : string;
  EMAIL_REPORTS_SUBJECT_PREFIX : string;
  EMAIL_PAGE_RENDER_WAIT : Z;
  EMAIL_REPORTS_WEBDRIVER : string;
  WEBDRIVER_CONFIGURATION : gmap string kwarg;
  WEBDRIVER_WINDOW_dashboard : Z * Z;
  WEBDRIVER_WINDOW_slice : Z * Z
}.

(** ** Exceptions, events and the environment *)

Inductive exn : Type :=
  | SlackApiError
  | WebDriverException
  | AssertionError (msg : string)
  | RuntimeError (msg : string)
  | IndexError
  | KeyError
  | AttributeError
  | UnboundLocalError
  | URLError (code : Z)
  | NoResultFound
  | SMTPException
  | OtherException (name : string)
  | KeyboardInterrupt.

(** [except Exception] catches everything but the bare [BaseException]s. *)
Definition is_Exception (e : exn) : bool :=
  match e with KeyboardInterrupt => false | _ => true end.

Definition is_SlackApiError (e : exn) : bool :=
  match e with SlackApiError => true | _ => false end.

Definition is_WebDriverException (e : exn) : bool :=
  match e with WebDriverException => true | _ => false end.

Inductive result (A : Type) : Type :=
  | Ok (a : A)
  | Raise (e : exn).
Arguments Ok {A} a.
Arguments Raise {A} e.

(** What the chat API answers to an upload: [response["file"]] and
    [str(response)]. *)
Record SlackResponse : Type := mkSlackResponse {
  response_file : option string;
  response_str : string
}.

(** One constructor per call that leaves the process. *)
Inductive event : Type :=
  | LogInfo (msg : string)
  | Sleep (seconds : Z)
  | SendEmailSmtp (to subject : string) (body : html)
      (data images : option (gmap string bytes)) (bcc : option string)
      (mime_subtype : string) (dryrun : bool)
  | FilesUpload (channels : string) (file : bytes)
      (initial_comment : markdown) (title : string)
  | DriverInit (driver_class : string) (kwargs : gmap string kwarg)
  | DriverGet (url : string)
  | FindElementsById (id : string)
  | AddCookie (value : string)
  | SetWindowSize (w h : Z)
  | FindElementByClassName (name : string)
  | ScreenshotAsPng
  | DriverScreenshot
  | DriverClose
  | DriverQuit
  | GetAuthCookies
  | QuerySchedule (report_type : ScheduleType) (id : Z)
  | QueryDashboard (id : Z)
  | QuerySlice (id : Z)
  | OpenUrl (url cookie : string).

Definition trace : Type := list event.

(** The collaborators of the module.  Every answer may depend on the calls
    made so far, so that a call can fail once and succeed later. *)
Record env : Type := mkEnv {
  cfg : config;
  (* pure helpers that live outside the module *)
  get_email_address_list : string -> list string;
  parseaddr : string -> string * string;
  url_for : string -> bool -> Z -> string;
  (* what [make_msgid] reads off the machine: the time, process id and random
     number part of an id, and [socket.getfqdn()] *)
  make_msgid_token : trace -> string;
  getfqdn : string;
  (* calls returning None: the answer is the exception raised, if any *)
  answer_unit : trace -> event -> option exn;
  (* calls returning bytes *)
  answer_bytes : trace -> event -> result bytes;
  answer_loginbox : trace -> result bool;
  answer_cookies : trace -> result (list string);
  answer_upload : trace -> event -> result SlackResponse;
  answer_schedule : trace -> ScheduleType -> Z -> result (option Schedule);
  answer_dashboard : trace -> Z -> result Dashboard;
  answer_slice : trace -> Z -> result Slice;
  answer_open : trace -> string -> string -> result (Z * bytes)
}.

(** ** The monad of the module: reader of [env], writer of [trace], errors *)

Definition M (A : Type) : Type := env -> trace -> trace * result A.

Definition ret {A} (a : A) : M A := fun _ tr => (tr, Ok a).
Definition raise {A} (e : exn) : M A := fun _ tr => (tr, Raise e).
Definition bind {A B} (m : M A) (k : A -> M B) : M B :=
  fun E tr =>
    match m E tr with
    | (tr', Ok a) => k a E tr'
    | (tr', Raise e) => (tr', Raise e)
    end.
Definition ask : M env := fun E tr => (tr, Ok E).

Notation "'let!' x ':=' m 'in' k" := (bind m (fun x => k))
  (at level 10, x name, m at level 100, k at level 200).
Notation "m '>>>' k" := (bind m (fun _ => k))
  (at level 100, k at level 200, right associativity).

(** [try: body except <catches> as e: handler e] *)
Definition try_except {A} (body : M A) (catches : exn -> bool)
    (handler : exn -> M A) : M A :=
  fun E tr =>
    match body E tr with
    | (tr', Raise e) => if catches e then handler e E tr' else (tr', Raise e)
    | r => r
    end.

(** [try: body finally: cleanup]; an exception of [cleanup] replaces the
    outcome of [body]. *)
Definition try_finally {A} (body : M A) (cleanup : M unit) : M A :=
  fun E tr =>
    match body E tr with
    | (tr', r) =>
        match cleanup E tr' with
        | (tr'', Ok _) => (tr'', r)
        | (tr'', Raise e) => (tr'', Raise e)
        end
    end.

Definition call_unit (ev : event) : M unit :=
  fun E tr =>
    (tr ++ [ev],
     match answer_unit E tr ev with Some e => Raise e | None => Ok tt end).

Definition call_bytes (ev : event) : M bytes :=
  fun E tr => (tr ++ [ev], answer_bytes E tr ev).

Definition log_info (msg : string) : M unit :=
  fun _ tr => (tr ++ [LogInfo msg], Ok tt).

Definition sleep (seconds : Z) : M unit :=
  fun _ tr => (tr ++ [Sleep seconds], Ok tt).

(** [for x in xs: f x] *)
Fixpoint for_each {A} (xs : list A) (f : A -> M unit) : M unit :=
  match xs with
  | [] => ret tt
  | x :: xs' => f x >>> for_each xs' f
  end.

(** ** Package [retry]: [retry_call] and the [@retry] decorator

    Both run [__retry_internal]: call [f]; on an exception of the listed
    classes decrement the tries and re-raise at zero, otherwise sleep [delay],
    multiply it by [backoff] and loop.  With no try left at the start the loop
    body never runs and the result is [None]. *)
Fixpoint retry_internal {A} (f : M A) (exceptions : exn -> bool)
    (tries : nat) (delay backoff : Z) : M (option A) :=
  match tries with
  | O => ret None
  | S tries' =>
      try_except (let! a := f in ret (Some a)) exceptions
        (fun e =>
           match tries' with
           | O => raise e
           | S _ =>
               sleep delay >>>
               retry_internal f exceptions tries' (delay * backoff) backoff
           end)
  end.

(** [retry_call(f, tries=.., delay=..)]: [exceptions=Exception],
    [backoff=1]. *)
Definition retry_call {A} (f : M A) (tries : nat) (delay : Z) : M (option A) :=
  retry_internal f is_Exception tries delay 1.

(** ** Delivery *)

Definition _get_email_to_and_bcc (E : env) (recipients : string)
    (deliver_as_group : bool) : list (string * option string) :=
  let bcc := EMAIL_REPORT_BCC_ADDRESS (cfg E) in
  if deliver_as_group then [(recipients, bcc)]
  else map (fun to => (to, bcc)) (get_email_address_list E recipients).

Definition send_email_smtp (to subject : string) (body : html)
    (data images : option (gmap string bytes)) (bcc : option string)
    (mime_subtype : string) (dryrun : bool) : M unit :=
  call_unit (SendEmailSmtp to subject body data images bcc mime_subtype dryrun).

Definition _deliver_email (recipients : string) (deliver_as_group : bool)
    (subject : string) (body : html)
    (data images : option (gmap string bytes)) : M unit :=
  let! E := ask in
  for_each (_get_email_to_and_bcc E recipients deliver_as_group)
    (fun to_bcc =>
       send_email_smtp (fst to_bcc) subject body data images (snd to_bcc)
         "related" (SCHEDULED_EMAIL_DEBUG_MODE (cfg E))).

Definition files_upload (channels : string) (file : bytes)
    (initial_comment : markdown) (title : string) : M SlackResponse :=
  fun E tr =>
    let ev := FilesUpload channels file initial_comment title in
    (tr ++ [ev], answer_upload E tr ev).

(** The body of [_deliver_slack], one attempt.  Building the [WebClient]
    from the configured token and proxy makes no call and is left out. *)
Definition _deliver_slack_attempt (slack_channel subject : string)
    (body : markdown) (file : bytes) : M unit :=
  let! response := files_upload slack_channel file body subject in
  log_info ("Sent the report to the slack " +:+ slack_channel) >>>
  if truthy (response_file response) then ret tt
  else raise (AssertionError (response_str response)).

(** [@retry(SlackApiError, delay=10, backoff=2, tries=5)] *)
Definition _deliver_slack (slack_channel subject : string)
    (body : markdown) (file : bytes) : M unit :=
  retry_internal (_deliver_slack_attempt slack_channel subject body file)
    is_SlackApiError 5 10 2 >>> ret tt.

(** ** Report content *)

(** [email.utils.make_msgid(idstring=None, domain=None)]: the id
    ['<%d.%d.%d%s@%s>'] of the time, the process id, a random number, the
    [idstring] behind a dot when there is one, and the [domain], which is the
    host's own name when none is given. *)
Definition make_msgid (idstring domain : option string) : M string :=
  fun E tr =>
    let idstring :=
      match idstring with None => "" | Some s => "." +:+ s end in
    let domain :=
      match domain with None => getfqdn E | Some d => d end in
    (tr, Ok ("<" +:+ make_msgid_token E tr +:+ idstring +:+ "@" +:+ domain
             +:+ ">")).

Definition _generate_report_content (delivery_type : EmailDeliveryType)
    (screenshot : bytes) (name url : string) : M ReportContent :=
  let slack_message := explore_markdown name url in
  match delivery_type with
  | attachment =>
      let images := None in
      let data := Some {[ "screenshot.png" := screenshot ]} in
      let body := explore_link url in
      ret (mkReportContent body data images slack_message screenshot)
  | inline =>
      let! E := ask in
      match split_on "@" (snd (parseaddr E (SMTP_MAIL_FROM (cfg E)))) !! 1%nat
      with
      | None => raise IndexError
      | Some domain =>
          (* the domain is passed in first position, as [idstring] *)
          let! msgid := make_msgid (Some domain) None in
          let msgid := strip_ends msgid in
          let images := Some {[ msgid := screenshot ]} in
          let data := None in
          let body := explore_link_with_image url msgid in
          ret (mkReportContent body data images slack_message screenshot)
      end
  end.

(** [_get_auth_cookies] logs the reports user in inside a test request
    context and reads the session cookies off the response headers; all of it
    happens in the web framework, so the function is one call whose answer is
    the list of cookies. *)
Definition _get_auth_cookies : M (list string) :=
  fun E tr => (tr ++ [GetAuthCookies], answer_cookies E tr).

(** [_get_url_path]: [url_for] joined to one of the two configured base
    URLs; the only keyword argument that matters here is the object id. *)
Definition _get_url_path (view : string) (user_friendly : bool) (id : Z)
    : M string :=
  fun E tr => (tr, Ok (url_for E view user_friendly id)).

(** ** The webdriver *)

(** The keyword arguments [create_webdriver] builds for the constructor of
    [driver_class]: [options = Options()] of that driver,
    [options.add_argument("--headless")], [kwargs = dict(options=options)],
    [kwargs.update(config["WEBDRIVER_CONFIGURATION"])]; the configured
    entries win over [options]. *)
Definition webdriver_kwargs (c : config) (driver_class : string)
    : gmap string kwarg :=
  let options := mkOptions driver_class [] in
  let options := add_argument options "--headless" in
  let kwargs : gmap string kwarg := {[ "options" := kw_options options ]} in
  WEBDRIVER_CONFIGURATION c ∪ kwargs.

Definition create_webdriver : M unit :=
  let! E := ask in
  let! driver_class :=
    (if String.eqb (EMAIL_REPORTS_WEBDRIVER (cfg E)) "firefox" then ret "firefox"
     else if String.eqb (EMAIL_REPORTS_WEBDRIVER (cfg E)) "chrome" then ret "chrome"
     else raise UnboundLocalError) in
  let kwargs := webdriver_kwargs (cfg E) driver_class in
  call_unit (DriverInit driver_class kwargs) >>>
  let! welcome_url := _get_url_path "Superset.welcome" false 0 in
  call_unit (DriverGet welcome_url) >>>
  let! elements :=
    (fun E tr => (tr ++ [FindElementsById "loginbox"], answer_loginbox E tr)) in
  if negb elements then ret tt
  else
    let! cookies := _get_auth_cookies in
    for_each cookies (fun cookie => call_unit (AddCookie cookie)).

Definition destroy_webdriver : M unit :=
  try_except (retry_call (call_unit DriverClose) 2 0 >>> ret tt)
    is_Exception (fun _ => ret tt) >>>
  try_except (call_unit DriverQuit) is_Exception (fun _ => ret tt).

(** [if target: f(target)] for an [Optional[str]] target. *)
Definition when_truthy (target : option string) (f : string -> M unit)
    : M unit :=
  match target with
  | Some (String _ _ as s) => f s
  | _ => ret tt
  end.

(** [try: element.screenshot_as_png except WebDriverException:
    driver.screenshot() finally: destroy_webdriver(driver)] *)
Definition take_screenshot (element : option unit) : M bytes :=
  try_finally
    (try_except
       (match element with
        | Some _ => call_bytes ScreenshotAsPng
        | None => raise AttributeError
        end)
       is_WebDriverException
       (fun _ => call_bytes DriverScreenshot))
    destroy_webdriver.

Definition deliver_dashboard (dashboard_id : Z)
    (recipients slack_channel : option string)
    (delivery_type : EmailDeliveryType) (deliver_as_group : bool) : M unit :=
  let! E := ask in
  let! dashboard :=
    (fun E tr => (tr ++ [QueryDashboard dashboard_id],
                  answer_dashboard E tr dashboard_id)) in
  let! dashboard_url :=
    _get_url_path "Superset.dashboard" false (dashboard_pk dashboard) in
  let! dashboard_url_user_friendly :=
    _get_url_path "Superset.dashboard" true (dashboard_pk dashboard) in
  create_webdriver >>>
  let window := WEBDRIVER_WINDOW_dashboard (cfg E) in
  call_unit (SetWindowSize (fst window) (snd window)) >>>
  call_unit (DriverGet dashboard_url) >>>
  sleep (EMAIL_PAGE_RENDER_WAIT (cfg E)) >>>
  let! element :=
    retry_call (call_unit (FindElementByClassName "grid-container")) 2
      (EMAIL_PAGE_RENDER_WAIT (cfg E)) in
  let! screenshot := take_screenshot element in
  let! report_content :=
    _generate_report_content delivery_type screenshot
      (dashboard_title dashboard) dashboard_url_user_friendly in
  let subject :=
    EMAIL_REPORTS_SUBJECT_PREFIX (cfg E) +:+ " " +:+ dashboard_title dashboard in
  when_truthy recipients (fun recipients =>
    _deliver_email recipients deliver_as_group subject
      (body report_content) (data_ report_content) (images report_content)) >>>
  when_truthy slack_channel (fun slack_channel =>
    _deliver_slack slack_channel subject
      (slack_message report_content) (slack_attachment report_content)).

(** [cookies = {}; for cookie in ...: cookies["session"] = cookie;
    cookies["session"]] *)
Definition session_cookie (cookies : list string) : M string :=
  match last cookies with
  | Some cookie => ret cookie
  | None => raise KeyError
  end.

Definition _get_slice_data (slc : Slice) (delivery_type : EmailDeliveryType)
    : M ReportContent :=
  let! slice_url := _get_url_path "Superset.explore_json" false (slice_pk slc) in
  let! slice_url_user_friendly :=
    _get_url_path "Superset.slice" true (slice_pk slc) in
  let! cookies := _get_auth_cookies in
  let! cookie := session_cookie cookies in
  let! response :=
    (fun E tr => (tr ++ [OpenUrl slice_url cookie],
                  answer_open E tr slice_url cookie)) in
  if negb (fst response =? 200) then raise (URLError (fst response))
  else
    let content := snd response in
    let rows := map (split_on ",") (splitlines content) in
    let slack_message :=
      explore_markdown (slice_name slc) slice_url_user_friendly in
    match delivery_type with
    | inline =>
        match rows with
        | [] => raise IndexError
        | columns :: rows =>
            let body :=
              slice_data_html columns rows (slice_name slc)
                slice_url_user_friendly in
            ret (mkReportContent body None None slack_message content)
        end
    | attachment =>
        let data := Some {[ slice_name slc +:+ ".csv" := content ]} in
        let body := explore_link slice_url_user_friendly in
        ret (mkReportContent body data None slack_message content)
    end.

Definition _get_slice_visualization (slc : Slice)
    (delivery_type : EmailDeliveryType) : M ReportContent :=
  let! E := ask in
  create_webdriver >>>
  let window := WEBDRIVER_WINDOW_slice (cfg E) in
  call_unit (SetWindowSize (fst window) (snd window)) >>>
  let! slice_url := _get_url_path "Superset.slice" false (slice_pk slc) in
  let! slice_url_user_friendly :=
    _get_url_path "Superset.slice" true (slice_pk slc) in
  call_unit (DriverGet slice_url) >>>
  sleep (EMAIL_PAGE_RENDER_WAIT (cfg E)) >>>
  let! element :=
    retry_call (call_unit (FindElementByClassName "chart-container")) 2
      (EMAIL_PAGE_RENDER_WAIT (cfg E)) in
  let! screenshot := take_screenshot element in
  _generate_report_content delivery_type screenshot (slice_name slc)
    slice_url_user_friendly.

Definition deliver_slice (slice_id : Z)
    (recipients slack_channel : option string)
    (delivery_type : EmailDeliveryType) (email_format : SliceEmailReportFormat)
    (deliver_as_group : bool) : M unit :=
  let! E := ask in
  let! slc :=
    (fun E tr => (tr ++ [QuerySlice slice_id], answer_slice E tr slice_id)) in
  let! report_content :=
    match email_format with
    | data => _get_slice_data slc delivery_type
    | visualization => _get_slice_visualization slc delivery_type
    | unknown_format => raise (RuntimeError "Unknown email report format")
    end in
  let subject :=
    EMAIL_REPORTS_SUBJECT_PREFIX (cfg E) +:+ " " +:+ slice_name slc in
  when_truthy recipients (fun recipients =>
    _deliver_email recipients deliver_as_group subject
      (body report_content) (data_ report_content) (images report_content)) >>>
  when_truthy slack_channel (fun slack_channel =>
    _deliver_slack slack_channel subject
      (slack_message report_content) (slack_attachment report_content)).

(** ** The celery job *)

(** The pair [(recipients, slack_channel)] the job goes on with. *)
Definition resolve_targets (schedule : Schedule)
    (recipients_arg slack_channel_arg : option string)
    : option string * option string :=
  (py_or recipients_arg (recipients schedule),
   py_or slack_channel_arg (slack_channel schedule)).

Definition schedule_email_report (report_type : ScheduleType)
    (schedule_id : Z) (recipients slack_channel : option string) : M unit :=
  let! schedule :=
    (fun E tr => (tr ++ [QuerySchedule report_type schedule_id],
                  answer_schedule E tr report_type schedule_id)) in
  match schedule with
  | None => log_info "Ignoring deactivated schedule"
  | Some schedule =>
      if negb (active schedule) then log_info "Ignoring deactivated schedule"
      else
        let targets := resolve_targets schedule recipients slack_channel in
        let recipients := fst targets in
        let slack_channel := snd targets in
        log_info ("Starting report for slack: " +:+ str_of slack_channel
                  +:+ " and recipients: " +:+ str_of recipients +:+ ".") >>>
        match report_type with
        | dashboard =>
            deliver_dashboard (dashboard_id schedule) recipients slack_channel
              (delivery_type schedule) (deliver_as_group schedule)
        | slice =>
            deliver_slice (slice_id schedule) recipients slack_channel
              (delivery_type schedule) (email_format schedule)
              (deliver_as_group schedule)
        | unknown_type => raise (RuntimeError "Unknown report type")
        end
  end.

(** ** Sample collaborators, used to run the module on concrete inputs *)

Definition sample_config : config :=
  {| EMAIL_REPORT_BCC_ADDRESS := Some "audit@example.org";
     SCHEDULED_EMAIL_DEBUG_MODE := false;
     SMTP_MAIL_FROM := "superset@superset.com";
     EMAIL_REPORTS_SUBJECT_PREFIX := "[Report]";
     EMAIL_PAGE_RENDER_WAIT := 30;
     EMAIL_REPORTS_WEBDRIVER := "firefox";
     WEBDRIVER_CONFIGURATION := ∅;
     WEBDRIVER_WINDOW_dashboard := (1600, 2000);
     WEBDRIVER_WINDOW_slice := (3000, 1200) |}.

(** Two lines of comma separated values, each ended by a line feed. *)
Definition sample_csv : bytes :=
  "day,total" +:+ String LF ("mon,3" +:+ String LF "").

(** An environment whose store holds [schedule] under every id, with the
    failures of the [None]-returning calls and the answers of the chat API
    left open. *)
Definition sample_env (schedule : option Schedule)
    (unit_answers : trace -> event -> option exn)
    (upload_answers : trace -> event -> result SlackResponse) : env :=
  {| cfg := sample_config;
     get_email_address_list := fun s => filter (fun x => x <> "") (split_on "," s);
     parseaddr := fun s => ("", s);
     url_for := fun view user_friendly id =>
       (if user_friendly then "https://reports.example.org/"
        else "http://0.0.0.0:8080/") +:+ view;
     make_msgid_token := fun _ => "20240101.1.42";
     getfqdn := "worker-1.example.org";
     answer_unit := unit_answers;
     answer_bytes := fun _ _ => Ok "PNG";
     answer_loginbox := fun _ => Ok false;
     answer_cookies := fun _ => Ok ["s3ss10n"];
     answer_upload := upload_answers;
     answer_schedule := fun _ _ _ => Ok schedule;
     answer_dashboard := fun _ id => Ok (mkDashboard id "Sales");
     answer_slice := fun _ id => Ok (mkSlice id "Revenue");
     answer_open := fun _ _ _ => Ok (200, sample_csv) |}.

Definition no_failure : trace -> event -> option exn := fun _ _ => None.

Definition upload_ok : trace -> event -> result SlackResponse :=
  fun _ _ => Ok (mkSlackResponse (Some "F0123") "{ok: true}").

Definition sample_schedule : Schedule :=
  {| active := true;
     recipients := Some "ann@example.org,bob@example.org,cy@example.org";
     slack_channel := Some "#reports";
     delivery_type := attachment;
     deliver_as_group := false;
     dashboard_id := 7;
     slice_id := 9;
     email_format := data |}.

(** An SMTP transport that refuses one address. *)
Definition smtp_rejects (address : string) : trace -> event -> option exn :=
  fun _ ev =>
    match ev with
    | SendEmailSmtp to _ _ _ _ _ _ _ =>
        if String.eqb to address then Some SMTPException else None
    | _ => None
    end.

(** A page on which the looked-up element never appears. *)
Definition element_missing : trace -> event -> option exn :=
  fun _ ev =>
    match ev with
    | FindElementByClassName _ => Some WebDriverException
    | _ => None
    end.

(** A chat API that is down, and one that answers without a file handle. *)
Definition upload_down : trace -> event -> result SlackResponse :=
  fun _ _ => Raise SlackApiError.

Definition upload_without_file : trace -> event -> result SlackResponse :=
  fun _ _ => Ok (mkSlackResponse None "{ok: true}").

(** ** Vocabulary of the statements *)

(** The call [_deliver_email] makes for the recipient [to]. *)
Definition email_call (E : env) (subject : string) (body : html)
    (data images : option (gmap string bytes)) (to : string) : event :=
  SendEmailSmtp to subject body data images
    (EMAIL_REPORT_BCC_ADDRESS (cfg E)) "related"
    (SCHEDULED_EMAIL_DEBUG_MODE (cfg E)).

(** Each call of [evs], made in turn after [tr], returns normally. *)
Fixpoint all_return (E : env) (tr : trace) (evs : list event) : bool :=
  match evs with
  | [] => true
  | ev :: evs' =>
      match answer_unit E tr ev with
      | None => all_return E (tr ++ [ev]) evs'
      | Some _ => false
      end
  end.

(** The delays slept in a trace, and the number of uploads attempted. *)
Definition sleeps_of (tr : trace) : list Z :=
  omap (fun ev => match ev with Sleep d => Some d | _ => None end) tr.

Definition uploads_of (tr : trace) : nat :=
  length
    (List.filter
       (fun ev => match ev with FilesUpload _ _ _ _ => true | _ => false end)
       tr).

(** What a failed run of [tries = S more] attempts leaves in the trace when
    each attempt makes the calls [evs]: a sleep between two attempts, none
    after the last. *)
Fixpoint failed_attempts (evs : list event) (more : nat) (delay backoff : Z)
    : list event :=
  match more with
  | O => evs
  | S more' =>
      evs ++ Sleep delay :: failed_attempts evs more' (delay * backoff) backoff
  end.

(** The two kinds of artifact a report is built from. *)
Inductive target : Type :=
  | visual (screenshot : bytes) (name url : string)
  | tabular (slc : Slice).

Definition build (mode : EmailDeliveryType) (t : target) : M ReportContent :=
  match t with
  | visual screenshot name url =>
      _generate_report_content mode screenshot name url
  | tabular slc => _get_slice_data slc mode
  end.






(** [sep.join(fields)] *)
Fixpoint join (sep : string) (fields : list string) : string :=
  match fields with
  | [] => ""
  | [field] => field
  | field :: fields' => field +:+ sep +:+ join sep fields'
  end.

(** The byte [c] occurs in [s]. *)
Fixpoint occurs (c : ascii) (s : string) : bool :=
  match s with
  | EmptyString => false
  | String c' s' => Ascii.eqb c' c || occurs c s'
  end.





(** ** The scheduler driver *)

(** A row of a schedule table as [schedule_window] reads it: the primary key,
    the cron expression and the delivery settings. *)
Record EmailSchedule : Type := mkEmailSchedule {
  pk : Z;
  crontab : croniter;
  settings : Schedule
}.

(** [schedule_email_report.apply_async(args, eta=eta)] *)
Record task : Type := apply_async {
  task_args : ScheduleType * Z;
  task_eta : Z
}.

(** The [for schedule in schedules] loop of [schedule_window]; the result is
    the list of tasks enqueued, in order. *)
Fixpoint enqueue_schedules (report_type : ScheduleType)
    (start_at stop_at resolution : Z) (schedules : list EmailSchedule)
    : option (list task) :=
  match schedules with
  | [] => Some []
  | schedule :: schedules' =>
      let args := (report_type, pk schedule) in
      match next_schedules (crontab schedule) start_at stop_at resolution with
      | None => None
      | Some etas =>
          match enqueue_schedules report_type start_at stop_at resolution
                  schedules' with
          | None => None
          | Some tasks => Some (map (apply_async args) etas ++ tasks)
          end
      end
  end.

(** [get_scheduler_model] (module [superset.models.schedules]) maps a report
    type to its model class, or to [None]; a model class is identified here
    with the rows of its table. *)
Definition schedule_window
    (get_scheduler_model : ScheduleType -> option (list EmailSchedule))
    (report_type : ScheduleType) (start_at stop_at resolution : Z)
    : option (list task) :=
  match get_scheduler_model report_type with
  | None => Some []
  | Some table =>
      let schedules :=
        List.filter (fun schedule => active (settings schedule)) table in
      enqueue_schedules report_type start_at stop_at resolution schedules
  end.

(** A store with two dashboard schedules, one of them switched off, and no
    table for slices. *)
Definition sample_models (report_type : ScheduleType)
    : option (list EmailSchedule) :=
  match report_type with
  | dashboard =>
      Some [mkEmailSchedule 1 hourly sample_schedule;
            mkEmailSchedule 2 minutely
              {| active := false;
                 recipients := None;
                 slack_channel := Some "#ops";
                 delivery_type := inline;
                 deliver_as_group := true;
                 dashboard_id := 8;
                 slice_id := 0;
                 email_format := visualization |};
            mkEmailSchedule 3 (every 1200) sample_schedule]
  | slice => Some []
  | unknown_type => None
  end.

(** ** Vocabulary of the statements about traces *)

(** Whatever [m] is run on, it only appends events, and all of them satisfy
    [P]. *)
Definition emits {A} (E : env) (P : event -> Prop) (m : M A) : Prop :=
  forall tr, exists evs, fst (m E tr) = tr ++ evs /\ Forall P evs.

Definition is_email (ev : event) : bool :=
  match ev with SendEmailSmtp _ _ _ _ _ _ _ _ => true | _ => false end.

Definition is_upload (ev : event) : bool :=
  match ev with FilesUpload _ _ _ _ => true | _ => false end.

(** Every e-mail goes out with the configured BCC address and dry-run flag,
    as a [related] multipart; every driver launched is the configured one of
    the two supported classes, is given each keyword argument of
    [WEBDRIVER_CONFIGURATION], and is given the headless options of its class
    when [WEBDRIVER_CONFIGURATION] has no [options] of its own. *)
Definition configured (E : env) (ev : event) : Prop :=
  match ev with
  | SendEmailSmtp _ _ _ _ _ bcc mime_subtype dryrun =>
      bcc = EMAIL_REPORT_BCC_ADDRESS (cfg E) /\
      mime_subtype = "related" /\
      dryrun = SCHEDULED_EMAIL_DEBUG_MODE (cfg E)
  | DriverInit driver_class kwargs =>
      driver_class = EMAIL_REPORTS_WEBDRIVER (cfg E) /\
      (driver_class = "firefox" \/ driver_class = "chrome") /\
      (forall key value,
         WEBDRIVER_CONFIGURATION (cfg E) !! key = Some value ->
         kwargs !! key = Some value) /\
      (WEBDRIVER_CONFIGURATION (cfg E) !! "options" = None ->
       kwargs !! "options"
       = Some (kw_options (mkOptions driver_class ["--headless"])))
  | _ => True
  end.

(** All exceptions the [None]-returning calls raise derive from
    [Exception]. *)
Definition only_Exceptions (E : env) : Prop :=
  forall tr ev e, answer_unit E tr ev = Some e -> is_Exception e = true.

(** Events other than e-mails, uploads and driver launches. *)
Definition plain (ev : event) : Prop :=
  match ev with
  | SendEmailSmtp _ _ _ _ _ _ _ _ => False
  | FilesUpload _ _ _ _ => False
  | DriverInit _ _ => False
  | _ => True
  end.

(** An environment in which every [None]-returning call fails. *)
Definition all_calls_fail : trace -> event -> option exn :=
  fun _ _ => Some WebDriverException.

(** A chat API that fails on the first upload of a trace and answers on the
    later ones. *)
Definition upload_flaky : trace -> event -> result SlackResponse :=
  fun tr ev =>
    if existsb is_upload tr
    then Ok (mkSlackResponse (Some "F0123") "{ok: true}")
    else Raise SlackApiError.

(** An environment with two session cookies whose data endpoint answers
    with status 204 and no content. *)
Definition unavailable_env : env :=
  {| cfg := sample_config;
     get_email_address_list := fun s => [s];
     parseaddr := fun s => ("", s);
     url_for := fun view _ _ => view;
     make_msgid_token := fun _ => "1";
     getfqdn := "worker-1.example.org";
     answer_unit := no_failure;
     answer_bytes := fun _ _ => Ok "PNG";
     answer_loginbox := fun _ => Ok false;
     answer_cookies := fun _ => Ok ["a"; "b"];
     answer_upload := upload_ok;
     answer_schedule := fun _ _ _ => Ok None;
     answer_dashboard := fun _ id => Ok (mkDashboard id "Sales");
     answer_slice := fun _ id => Ok (mkSlice id "Revenue");
     answer_open := fun _ _ _ => Ok (204, "") |}.

(** * Properties *)

(** ** The cron window expander *)

Lemma every_ok (n : Z) : 0 < n -> croniter_ok (every n).
Proof.
  intros Hn. split; simpl.
  - intros t. pose proof (Z.div_mod t n ltac:(lia)) as Hd.
    pose proof (Z.mod_pos_bound t n Hn) as Hm. nia.
  - intros t. apply Z.eqb_eq. apply Z.mod_mul. lia.
  - intros t u Htu Hu. apply Z.eqb_eq in Hu.
    pose proof (Z.div_mod u n ltac:(lia)) as Hd. rewrite Hu in Hd.
    assert (Hq : t / n < u / n).
    { apply Z.div_lt_upper_bound; lia. }
    nia.
Qed.

Lemma hourly_ok : croniter_ok hourly.
Proof. apply every_ok. lia. Qed.

Lemma minutely_ok : croniter_ok minutely.
Proof. apply every_ok. lia. Qed.

Example next_schedules_hourly_3h :
  next_schedules hourly 1704067200 1704078000 0
  = Some [1704067200; 1704070800; 1704074400].
Proof. vm_compute. reflexivity. Qed.

Example next_schedules_hourly_3h_debounced :
  next_schedules hourly 1704067200 1704078000 7200
  = Some [1704067200; 1704074400].
Proof. vm_compute. reflexivity. Qed.

Section all_next_loop.
Variable c : croniter.
Variables start_at stop_at resolution : Z.

Local Abbreviation loop := (fun fuel cur previous =>
  all_next_loop c fuel cur previous start_at stop_at resolution).

(** One unfolding of the loop, by the case the candidate falls in. *)
Lemma loop_step fuel cur previous :
  loop (S fuel) cur previous =
    let eta := get_next c cur in
    if stop_at <=? eta then Some []
    else if eta <? start_at then loop fuel eta previous
    else if eta - previous <? resolution then loop fuel eta previous
    else cons eta <$> loop fuel eta eta.
Proof. reflexivity. Qed.

Ltac loop_cases H cur previous :=
  rewrite loop_step in H; cbv zeta in H;
  destruct (Z.leb_spec stop_at (get_next c cur)) as [Hstop|Hstop];
  [|destruct (Z.ltb_spec (get_next c cur) start_at) as [Hlow|Hlow];
    [|destruct (Z.ltb_spec (get_next c cur - previous) resolution)
        as [Hdeb|Hdeb]]].

(** Every yielded instant lies in the window and is matched. *)
Lemma loop_in_window fuel : forall cur previous l,
  (forall t, fires c (get_next c t) = true) ->
  loop fuel cur previous = Some l ->
  Forall (fun t => start_at <= t < stop_at /\ fires c t = true) l.
Proof.
  induction fuel as [|fuel IH]; intros cur previous l Hf H; [discriminate|].
  loop_cases H cur previous.
  - injection H as <-. constructor.
  - eauto.
  - eauto.
  - destruct (loop fuel (get_next c cur) (get_next c cur)) as [l'|] eqn:E;
      [|discriminate].
    injection H as <-. constructor; [split; [lia | apply Hf]|].
    eapply IH; eauto.
Qed.

Hypothesis Hc : croniter_ok c.

(** The loop reaches its [break] within the fuel [next_schedules] gives. *)
Lemma loop_total fuel : forall cur previous,
  (Z.to_nat (stop_at - cur - 1) < fuel)%nat ->
  is_Some (loop fuel cur previous).
Proof.
  induction fuel as [|fuel IH]; intros cur previous Hfuel; [lia|].
  pose proof (get_next_gt c Hc cur) as Hgt.
  rewrite loop_step; cbv zeta.
  destruct (Z.leb_spec stop_at (get_next c cur)) as [Hstop|Hstop]; [eauto|].
  assert (Hrec : forall p, is_Some (loop fuel (get_next c cur) p)).
  { intros p. apply IH. lia. }
  destruct (Z.ltb_spec (get_next c cur) start_at); [apply Hrec|].
  destruct (Z.ltb_spec (get_next c cur - previous) resolution); [apply Hrec|].
  destruct (Hrec (get_next c cur)) as [l' ->]. simpl. eauto.
Qed.

(** Yielded instants come after the iterator's position, in strictly
    increasing order, each at least [resolution] after the one before. *)
Lemma loop_spacing fuel : forall cur previous l,
  loop fuel cur previous = Some l ->
  Forall (fun t => cur < t) l /\
  StronglySorted Z.lt l /\
  consecutive (fun a b => resolution <= b - a) l /\
  (forall a, head l = Some a -> resolution <= a - previous).
Proof.
  induction fuel as [|fuel IH]; intros cur previous l H; [discriminate|].
  pose proof (get_next_gt c Hc cur) as Hgt.
  loop_cases H cur previous.
  - injection H as <-. repeat split; try constructor. intros a; discriminate.
  - destruct (IH _ _ _ H) as (Hlt & Hs & Hcons & Hhd).
    repeat split; auto. eapply Forall_impl; [exact Hlt|]. simpl; intros; lia.
  - destruct (IH _ _ _ H) as (Hlt & Hs & Hcons & Hhd).
    repeat split; auto. eapply Forall_impl; [exact Hlt|]. simpl; intros; lia.
  - destruct (loop fuel (get_next c cur) (get_next c cur)) as [l'|] eqn:E;
      [|discriminate].
    injection H as <-.
    destruct (IH _ _ _ E) as (Hlt & Hs & Hcons & Hhd).
    repeat split.
    + constructor; [lia|].
      eapply Forall_impl; [exact Hlt|]. simpl; intros; lia.
    + constructor; assumption.
    + destruct l' as [|b l'']; simpl; [exact I|].
      split; [apply Hhd; reflexivity | exact Hcons].
    + intros a [= <-]. lia.
Qed.

(** Without a positive resolution no candidate of the window is dropped. *)
Lemma loop_complete fuel : forall cur previous l t,
  resolution <= 0 -> previous <= cur ->
  loop fuel cur previous = Some l ->
  cur < t -> start_at <= t < stop_at -> fires c t = true ->
  In t l.
Proof.
  induction fuel as [|fuel IH]; intros cur previous l t Hr Hp H Hct Hw Hft;
    [discriminate|].
  pose proof (get_next_gt c Hc cur) as Hgt.
  pose proof (get_next_least c Hc cur t Hct Hft) as Hle.
  loop_cases H cur previous.
  - lia.
  - apply (IH (get_next c cur) previous l t); auto; lia.
  - lia.
  - destruct (loop fuel (get_next c cur) (get_next c cur)) as [l'|] eqn:E;
      [|discriminate].
    injection H as <-.
    destruct (Z.eq_dec (get_next c cur) t) as [->|Hne]; [left; reflexivity|].
    right. apply (IH (get_next c cur) (get_next c cur) l' t); auto; lia.
Qed.

(** The first matched instant of the window heads the result as soon as it
    is [resolution] away from [previous]. *)
Lemma loop_first fuel : forall cur previous eta,
  (Z.to_nat (stop_at - cur - 1) < fuel)%nat ->
  cur < eta -> start_at <= eta < stop_at -> fires c eta = true ->
  (forall u, start_at <= u < eta -> fires c u = false) ->
  resolution <= eta - previous ->
  exists l, loop fuel cur previous = Some (eta :: l).
Proof.
  induction fuel as [|fuel IH]; intros cur previous eta Hfuel Hce Hw Hfe Hno Hr;
    [lia|].
  pose proof (get_next_gt c Hc cur) as Hgt.
  pose proof (get_next_least c Hc cur eta Hce Hfe) as Hle.
  pose proof (get_next_fires c Hc cur) as Hfn.
  rewrite loop_step; cbv zeta.
  destruct (Z.leb_spec stop_at (get_next c cur)) as [Hstop|Hstop]; [lia|].
  destruct (Z.ltb_spec (get_next c cur) start_at) as [Hlow|Hlow].
  { apply IH; auto; lia. }
  assert (He : get_next c cur = eta).
  { destruct (Z.eq_dec (get_next c cur) eta) as [|Hne]; [assumption|].
    rewrite (Hno (get_next c cur)) in Hfn; [discriminate | lia]. }
  rewrite He.
  destruct (Z.ltb_spec (eta - previous) resolution) as [Hdeb|Hdeb]; [lia|].
  destruct (loop_total fuel eta eta) as [l' Hl']; [lia|].
  rewrite Hl'. simpl. eauto.
Qed.
End all_next_loop.

Lemma next_schedules_total c start_at stop_at resolution :
  croniter_ok c -> is_Some (next_schedules c start_at stop_at resolution).
Proof.
  intros Hc. unfold next_schedules. apply loop_total; [assumption|].
  unfold one_second. lia.
Qed.

(** C1 (amended).  For every cron expression and every window,
    [next_schedules] returns; no yielded instant is greater than or equal to
    [stop_at]; when the cron fires at [start_at], the window is not empty and
    [resolution] is at most one day (86400 seconds), the first yielded instant
    is [start_at] itself; and when [stop_at <= start_at] nothing is yielded. *)
Theorem next_schedules_window c start_at stop_at resolution :
  croniter_ok c ->
  exists l, next_schedules c start_at stop_at resolution = Some l /\
    Forall (fun t => t < stop_at) l /\
    (fires c start_at = true -> start_at < stop_at -> resolution <= one_day ->
     head l = Some start_at) /\
    (stop_at <= start_at -> l = []).
Proof.
  intros Hc.
  destruct (next_schedules_total c start_at stop_at resolution Hc) as [l Hl].
  exists l. split; [assumption|].
  pose proof (loop_in_window c start_at stop_at resolution _ _ _ l
                (get_next_fires c Hc) Hl) as Hwin.
  repeat split.
  - eapply Forall_impl; [exact Hwin|]. simpl. intros t [Ht _]. lia.
  - intros Hf Hne Hr.
    assert (Hnone : forall u, start_at <= u < start_at -> fires c u = false)
      by (intros u Hu; lia).
    unfold next_schedules, one_second, one_day in *.
    destruct (loop_first c start_at stop_at resolution Hc
                (S (Z.to_nat (stop_at - start_at)))
                (start_at - 1) (start_at - 86400) start_at
                ltac:(lia) ltac:(lia) ltac:(lia) Hf Hnone ltac:(lia))
      as [l' Hl'].
    rewrite Hl' in Hl. injection Hl as <-. reflexivity.
  - intros Hempty. destruct l as [|t l']; [reflexivity|].
    apply Forall_inv in Hwin. lia.
Qed.

Lemma next_schedules_window_witness :
  croniter_ok hourly /\
  exists l, next_schedules hourly 1704067200 1704078000 0 = Some l /\
    Forall (fun t => t < 1704078000) l /\
    (fires hourly 1704067200 = true -> 1704067200 < 1704078000 ->
     0 <= one_day -> head l = Some 1704067200) /\
    (1704078000 <= 1704067200 -> l = []).
Proof.
  split; [exact hourly_ok|].
  apply (next_schedules_window hourly 1704067200 1704078000 0). exact hourly_ok.
Defined.

(** C1 as stated fails: with a resolution above one day the instant at
    [start_at] is dropped although the cron fires there and the window is not
    empty. *)
Lemma next_schedules_start_dropped :
  croniter_ok hourly /\ fires hourly 0 = true /\ 0 < 3600 /\
  exists l, next_schedules hourly 0 3600 90000 = Some l /\ ~ In 0 l.
Proof.
  split; [exact hourly_ok|]. split; [reflexivity|]. split; [lia|].
  exists []. split; [vm_compute; reflexivity | intros []].
Qed.

(** C2.  [next_schedules] returns a list in which every instant is at least
    [resolution] seconds after the one yielded before it, the instants are in
    strictly increasing order, and with [resolution = 0] nothing is dropped:
    the list holds exactly the instants of the window at which the cron
    fires. *)
Theorem next_schedules_debounce c start_at stop_at resolution :
  croniter_ok c ->
  exists l, next_schedules c start_at stop_at resolution = Some l /\
    consecutive (fun a b => resolution <= b - a) l /\
    StronglySorted Z.lt l /\
    (resolution = 0 ->
     forall t, In t l <-> (start_at <= t < stop_at /\ fires c t = true)).
Proof.
  intros Hc.
  destruct (next_schedules_total c start_at stop_at resolution Hc) as [l Hl].
  exists l. split; [assumption|].
  destruct (loop_spacing c start_at stop_at resolution Hc _ _ _ l Hl)
    as (_ & Hsorted & Hcons & _).
  split; [exact Hcons|]. split; [exact Hsorted|].
  intros Hr t. split.
  - intros Hin.
    pose proof (loop_in_window c start_at stop_at resolution _ _ _ l
                  (get_next_fires c Hc) Hl) as Hwin.
    rewrite List.Forall_forall in Hwin. exact (Hwin t Hin).
  - intros [Hw Hf]. unfold next_schedules in Hl.
    apply (loop_complete c start_at stop_at resolution Hc
             (S (Z.to_nat (stop_at - start_at)))
             (start_at - one_second) (start_at - one_day) l t);
      auto; unfold one_second, one_day; lia.
Qed.

Lemma next_schedules_debounce_witness :
  croniter_ok minutely /\
  exists l, next_schedules minutely 90 600 120 = Some l /\
    consecutive (fun a b => 120 <= b - a) l /\
    StronglySorted Z.lt l /\
    (120 = 0 ->
     forall t, In t l <-> (90 <= t < 600 /\ fires minutely t = true)).
Proof.
  split; [exact minutely_ok|].
  apply (next_schedules_debounce minutely 90 600 120). exact minutely_ok.
Defined.

(** C3 (amended).  For every cron expression and window and every resolution
    of at most [eta - start_at] plus one day, so in particular every
    resolution of at most one day (86400 seconds), the first instant [eta] of
    the cron with [start_at <= eta < stop_at] is yielded by [next_schedules],
    as its first element. *)
Theorem next_schedules_first_candidate c start_at stop_at resolution eta :
  croniter_ok c ->
  resolution <= eta - start_at + one_day ->
  start_at <= eta < stop_at ->
  fires c eta = true ->
  (forall u, start_at <= u < eta -> fires c u = false) ->
  exists l, next_schedules c start_at stop_at resolution = Some (eta :: l).
Proof.
  intros Hc Hr Hw Hf Hfirst. unfold next_schedules.
  apply loop_first; auto; unfold one_second, one_day in *; lia.
Qed.

Lemma next_schedules_first_candidate_witness :
  croniter_ok hourly /\ 86400 <= 3600 - 1800 + one_day /\
  1800 <= 3600 < 7200 /\
  fires hourly 3600 = true /\
  (forall u, 1800 <= u < 3600 -> fires hourly u = false) /\
  exists l, next_schedules hourly 1800 7200 86400 = Some (3600 :: l).
Proof.
  assert (Hfirst : forall u, 1800 <= u < 3600 -> fires hourly u = false).
  { intros u Hu. simpl. rewrite Z.mod_small by lia. apply Z.eqb_neq. lia. }
  split; [exact hourly_ok|]. split; [unfold one_day; lia|].
  split; [lia|]. split; [reflexivity|]. split; [exact Hfirst|].
  apply (next_schedules_first_candidate hourly 1800 7200 86400 3600);
    [exact hourly_ok | unfold one_day; lia | lia | reflexivity | exact Hfirst].
Defined.

(** C3 as stated fails: a resolution above one day suppresses the first
    candidate of the window. *)
Lemma first_candidate_suppressed :
  croniter_ok minutely /\ 30 <= 60 < 3600 /\ fires minutely 60 = true /\
  (forall u, 30 <= u < 60 -> fires minutely u = false) /\
  exists l, next_schedules minutely 30 3600 100000 = Some l /\ ~ In 60 l.
Proof.
  split; [exact minutely_ok|]. split; [lia|]. split; [reflexivity|].
  split.
  { intros u Hu. simpl. rewrite Z.mod_small by lia. apply Z.eqb_neq. lia. }
  exists []. split; [vm_compute; reflexivity | intros []].
Qed.

(** ** Running the monad *)

Lemma bind_ok {A B} (m : M A) (k : A -> M B) E tr tr' a :
  m E tr = (tr', Ok a) -> bind m k E tr = k a E tr'.
Proof. intros H. unfold bind. rewrite H. reflexivity. Qed.

Lemma bind_raise {A B} (m : M A) (k : A -> M B) E tr tr' e :
  m E tr = (tr', Raise e) -> bind m k E tr = (tr', Raise e).
Proof. intros H. unfold bind. rewrite H. reflexivity. Qed.

Lemma call_unit_ok E tr ev :
  answer_unit E tr ev = None -> call_unit ev E tr = (tr ++ [ev], Ok tt).
Proof. intros H. unfold call_unit. rewrite H. reflexivity. Qed.

Lemma call_unit_raise E tr ev e :
  answer_unit E tr ev = Some e -> call_unit ev E tr = (tr ++ [ev], Raise e).
Proof. intros H. unfold call_unit. rewrite H. reflexivity. Qed.

Lemma for_each_map {A} (f : A -> event) (xs : list A) E tr :
  for_each xs (fun x => call_unit (f x)) E tr
  = for_each (map f xs) call_unit E tr.
Proof.
  revert tr. induction xs as [|x xs IH]; intros tr; [reflexivity|].
  simpl. unfold bind. destruct (call_unit (f x) E tr) as [tr' [[]|e]]; auto.
Qed.

Lemma for_each_all_return E (evs : list event) : forall tr,
  all_return E tr evs = true ->
  for_each evs call_unit E tr = (tr ++ evs, Ok tt).
Proof.
  induction evs as [|ev evs IH]; intros tr H; simpl in *.
  - rewrite app_nil_r. reflexivity.
  - destruct (answer_unit E tr ev) eqn:Ha; [discriminate|].
    rewrite (bind_ok _ _ _ _ _ _ (call_unit_ok E tr ev Ha)).
    rewrite (IH _ H), <- app_assoc. reflexivity.
Qed.

Lemma for_each_first_failure E (pre : list event) ev post e : forall tr,
  all_return E tr pre = true ->
  answer_unit E (tr ++ pre) ev = Some e ->
  for_each (pre ++ ev :: post) call_unit E tr = (tr ++ pre ++ [ev], Raise e).
Proof.
  induction pre as [|p pre IH]; intros tr H He; simpl in *.
  - rewrite app_nil_r in He.
    rewrite (bind_raise _ _ _ _ _ _ (call_unit_raise E tr ev e He)).
    reflexivity.
  - destruct (answer_unit E tr p) eqn:Ha; [discriminate|].
    rewrite (bind_ok _ _ _ _ _ _ (call_unit_ok E tr p Ha)).
    rewrite (IH (tr ++ [p]) H); rewrite <- app_assoc; [reflexivity|exact He].
Qed.

(** Whatever the answers, the calls made are an initial part of the list. *)
Lemma for_each_prefix E (evs : list event) : forall tr,
  exists k, fst (for_each evs call_unit E tr) = tr ++ take k evs.
Proof.
  induction evs as [|ev evs IH]; intros tr; simpl.
  - exists 0%nat. rewrite app_nil_r. reflexivity.
  - unfold bind, call_unit at 1.
    destruct (answer_unit E tr ev) as [e|].
    + exists 1%nat. reflexivity.
    + destruct (IH (tr ++ [ev])) as [k Hk]. exists (S k).
      rewrite Hk, <- app_assoc. reflexivity.
Qed.

(** ** E-mail fan-out *)

Lemma _deliver_email_run E tr recipients deliver_as_group subject body data images :
  _deliver_email recipients deliver_as_group subject body data images E tr
  = for_each
      (map (email_call E subject body data images)
         (if deliver_as_group then [recipients]
          else get_email_address_list E recipients))
      call_unit E tr.
Proof.
  unfold _deliver_email, bind, ask, _get_email_to_and_bcc, send_email_smtp.
  destruct deliver_as_group.
  - reflexivity.
  - rewrite for_each_map, map_map. reflexivity.
Qed.

(** C9 (amended).  With [deliver_as_group] there is exactly one send,
    addressed to the whole recipient string; without it, and when every send
    returns normally, there are exactly as many sends as parsed addresses,
    one per address in order; in both modes every send made carries the
    configured BCC address. *)
Theorem _deliver_email_fan_out E tr recipients subject body data images :
  fst (_deliver_email recipients true subject body data images E tr)
    = tr ++ [email_call E subject body data images recipients] /\
  (all_return E tr
     (map (email_call E subject body data images)
        (get_email_address_list E recipients)) = true ->
   _deliver_email recipients false subject body data images E tr
     = (tr ++ map (email_call E subject body data images)
                (get_email_address_list E recipients), Ok tt)) /\
  (forall deliver_as_group, exists tos,
     fst (_deliver_email recipients deliver_as_group subject body data images
            E tr)
       = tr ++ map (fun to =>
                      SendEmailSmtp to subject body data images
                        (EMAIL_REPORT_BCC_ADDRESS (cfg E)) "related"
                        (SCHEDULED_EMAIL_DEBUG_MODE (cfg E))) tos).
Proof.
  split; [|split].
  - rewrite _deliver_email_run. simpl. unfold bind, call_unit.
    destruct (answer_unit E tr _); reflexivity.
  - intros H. rewrite _deliver_email_run. apply for_each_all_return. exact H.
  - intros g. rewrite _deliver_email_run.
    destruct (for_each_prefix E
                (map (email_call E subject body data images)
                   (if g then [recipients]
                    else get_email_address_list E recipients)) tr) as [k Hk].
    exists (take k (if g then [recipients]
                    else get_email_address_list E recipients)).
    rewrite Hk. unfold email_call. rewrite <- fmap_take. reflexivity.
Qed.

Lemma _deliver_email_fan_out_witness :
  all_return (sample_env None no_failure upload_ok) []
    (map (email_call (sample_env None no_failure upload_ok)
            "[Report] Sales" (explore_link "u") None None)
       (get_email_address_list (sample_env None no_failure upload_ok)
          "ann@example.org,bob@example.org,cy@example.org")) = true /\
  _deliver_email "ann@example.org,bob@example.org,cy@example.org" false
    "[Report] Sales" (explore_link "u") None None
    (sample_env None no_failure upload_ok) []
  = ([] ++ map (email_call (sample_env None no_failure upload_ok)
                  "[Report] Sales" (explore_link "u") None None)
             ["ann@example.org"; "bob@example.org"; "cy@example.org"],
     Ok tt).
Proof.
  split; [reflexivity|].
  apply (_deliver_email_fan_out (sample_env None no_failure upload_ok) []
           "ann@example.org,bob@example.org,cy@example.org"
           "[Report] Sales" (explore_link "u") None None).
  reflexivity.
Defined.

(** C9 as stated fails: the recipient string parses to two addresses, the
    transport refuses the first, and one send call occurs, not two. *)
Lemma _deliver_email_fewer_sends :
  length (get_email_address_list
            (sample_env None (smtp_rejects "ann@example.org") upload_ok)
            "ann@example.org,bob@example.org") = 2%nat /\
  length (List.filter is_email
            (fst (_deliver_email "ann@example.org,bob@example.org" false
                    "[Report] Sales" (explore_link "u") None None
                    (sample_env None (smtp_rejects "ann@example.org")
                       upload_ok) []))) = 1%nat.
Proof. split; reflexivity. Qed.

(** C5 (amended).  Without [deliver_as_group] the sends are attempted in the
    order of the parsed addresses up to the first one that raises: that
    exception reaches the caller of [_deliver_email], and the sends to the
    addresses after it are not attempted. *)
Theorem _deliver_email_first_failure E tr recipients subject body data images
    pre to post e :
  get_email_address_list E recipients = pre ++ to :: post ->
  all_return E tr (map (email_call E subject body data images) pre) = true ->
  answer_unit E (tr ++ map (email_call E subject body data images) pre)
    (email_call E subject body data images to) = Some e ->
  _deliver_email recipients false subject body data images E tr
  = (tr ++ map (email_call E subject body data images) (pre ++ [to]), Raise e).
Proof.
  intros Hparse Hpre Hfail. rewrite _deliver_email_run, Hparse.
  rewrite !map_app. simpl map.
  apply for_each_first_failure; assumption.
Qed.

Lemma _deliver_email_first_failure_witness :
  _deliver_email "ann@example.org,bob@example.org,cy@example.org" false
    "[Report] Sales" (explore_link "u") None None
    (sample_env None (smtp_rejects "bob@example.org") upload_ok) []
  = ([] ++ map (email_call
                  (sample_env None (smtp_rejects "bob@example.org") upload_ok)
                  "[Report] Sales" (explore_link "u") None None)
             (["ann@example.org"] ++ ["bob@example.org"]),
     Raise SMTPException).
Proof.
  apply (_deliver_email_first_failure
           (sample_env None (smtp_rejects "bob@example.org") upload_ok) []
           "ann@example.org,bob@example.org,cy@example.org"
           "[Report] Sales" (explore_link "u") None None
           ["ann@example.org"] "bob@example.org" ["cy@example.org"]
           SMTPException); reflexivity.
Defined.

(** C5 as stated fails: the transport refuses the first of three recipients
    and the other two sends are never attempted. *)
Lemma _deliver_email_siblings_not_attempted :
  get_email_address_list
    (sample_env None (smtp_rejects "ann@example.org") upload_ok)
    "ann@example.org,bob@example.org,cy@example.org"
  = ["ann@example.org"; "bob@example.org"; "cy@example.org"] /\
  _deliver_email "ann@example.org,bob@example.org,cy@example.org" false
    "[Report] Sales" (explore_link "u") None None
    (sample_env None (smtp_rejects "ann@example.org") upload_ok) []
  = ([SendEmailSmtp "ann@example.org" "[Report] Sales" (explore_link "u")
        None None (Some "audit@example.org") "related" false],
     Raise SMTPException).
Proof. split; reflexivity. Qed.

(** ** Chat delivery *)

Lemma retry_internal_exhausted {A} (f : M A) (exceptions : exn -> bool)
    E evs e backoff :
  (forall tr, f E tr = (tr ++ evs, Raise e)) ->
  exceptions e = true ->
  forall more delay tr,
    retry_internal f exceptions (S more) delay backoff E tr
    = (tr ++ failed_attempts evs more delay backoff, Raise e).
Proof.
  intros Hf He. induction more as [|more IH]; intros delay tr.
  - simpl. unfold try_except, bind. rewrite Hf, He. reflexivity.
  - change (retry_internal f exceptions (S (S more)) delay backoff E tr)
      with (try_except (let! a := f in ret (Some a)) exceptions
              (fun e => sleep delay >>>
                 retry_internal f exceptions (S more) (delay * backoff) backoff)
              E tr).
    unfold try_except, bind at 1. rewrite Hf, He.
    unfold bind, sleep. rewrite IH.
    simpl failed_attempts. rewrite <- !app_assoc. reflexivity.
Qed.

Lemma retry_internal_not_listed {A} (f : M A) (exceptions : exn -> bool)
    E tr tr' e tries delay backoff :
  f E tr = (tr', Raise e) ->
  exceptions e = false ->
  retry_internal f exceptions (S tries) delay backoff E tr = (tr', Raise e).
Proof.
  intros Hf He. simpl. unfold try_except, bind. rewrite Hf, He. reflexivity.
Qed.

(** C6 (amended).  When every upload raises [SlackApiError], [_deliver_slack]
    makes exactly five attempts with the four sleeps 10, 20, 40 and 80 between
    them (the delay that has grown to 160 is never slept) and the error then
    reaches the caller; when the first upload returns an answer without the
    file handle, an [AssertionError] is raised after that single attempt. *)
Theorem _deliver_slack_retries E tr slack_channel subject body file :
  let upload := FilesUpload slack_channel file body subject in
  ((forall tr', answer_upload E tr' upload = Raise SlackApiError) ->
   _deliver_slack slack_channel subject body file E tr
     = (tr ++ [upload; Sleep 10; upload; Sleep 20; upload; Sleep 40;
               upload; Sleep 80; upload], Raise SlackApiError)) /\
  (forall response,
     answer_upload E tr upload = Ok response ->
     truthy (response_file response) = false ->
     _deliver_slack slack_channel subject body file E tr
       = (tr ++ [upload;
                 LogInfo ("Sent the report to the slack " +:+ slack_channel)],
          Raise (AssertionError (response_str response)))).
Proof.
  cbv zeta. split.
  - intros Hdown. unfold _deliver_slack.
    apply bind_raise.
    rewrite (retry_internal_exhausted _ _ E
               [FilesUpload slack_channel file body subject] SlackApiError).
    + reflexivity.
    + intros tr'. unfold _deliver_slack_attempt, files_upload, bind.
      rewrite Hdown. reflexivity.
    + reflexivity.
  - intros response Hanswer Hfile. unfold _deliver_slack.
    apply bind_raise. apply retry_internal_not_listed; [|reflexivity].
    unfold _deliver_slack_attempt, files_upload, bind, log_info, raise.
    rewrite Hanswer, Hfile. rewrite <- app_assoc. reflexivity.
Qed.

Lemma _deliver_slack_retries_witness :
  (forall tr', answer_upload (sample_env None no_failure upload_down) tr'
                 (FilesUpload "#reports" "PNG" (explore_markdown "Sales" "u")
                    "[Report] Sales")
               = Raise SlackApiError) /\
  uploads_of
    (fst (_deliver_slack "#reports" "[Report] Sales"
            (explore_markdown "Sales" "u") "PNG"
            (sample_env None no_failure upload_down) [])) = 5%nat /\
  sleeps_of
    (fst (_deliver_slack "#reports" "[Report] Sales"
            (explore_markdown "Sales" "u") "PNG"
            (sample_env None no_failure upload_down) [])) = [10; 20; 40; 80].
Proof.
  assert (Hdown : forall tr',
            answer_upload (sample_env None no_failure upload_down) tr'
              (FilesUpload "#reports" "PNG" (explore_markdown "Sales" "u")
                 "[Report] Sales") = Raise SlackApiError)
    by (intros tr'; reflexivity).
  split; [exact Hdown|].
  rewrite (proj1 (_deliver_slack_retries
                    (sample_env None no_failure upload_down) []
                    "#reports" "[Report] Sales"
                    (explore_markdown "Sales" "u") "PNG") Hdown).
  split; reflexivity.
Defined.

(** C6 as stated fails: between the five attempts only four delays are slept,
    the last of them 80, not the five delays 10, 20, 40, 80, 160. *)
Lemma _deliver_slack_sleeps_not_160 :
  uploads_of
    (fst (_deliver_slack "#reports" "[Report] Sales"
            (explore_markdown "Sales" "u") "PNG"
            (sample_env None no_failure upload_down) [])) = 5%nat /\
  sleeps_of
    (fst (_deliver_slack "#reports" "[Report] Sales"
            (explore_markdown "Sales" "u") "PNG"
            (sample_env None no_failure upload_down) []))
  <> [10; 20; 40; 80; 160].
Proof. split; [reflexivity | vm_compute; discriminate]. Qed.

(** ** The webdriver life cycle *)

(** [destroy_webdriver] swallows every [Exception] of [close] and [quit]. *)
Lemma destroy_webdriver_returns E tr :
  (forall tr' ev e, answer_unit E tr' ev = Some e -> is_Exception e = true) ->
  snd (destroy_webdriver E tr) = Ok tt /\
  last (fst (destroy_webdriver E tr)) = Some DriverQuit.
Proof.
  intros Hexc.
  unfold destroy_webdriver, retry_call, retry_internal, try_except, bind,
    call_unit, sleep, ret, raise.
  repeat match goal with
         | |- context [answer_unit E ?t ?ev] =>
             let Ha := fresh "Ha" in
             destruct (answer_unit E t ev) as [?e|] eqn:Ha;
             [rewrite ?(Hexc _ _ _ Ha)|]; simpl
         end;
    rewrite ?last_snoc; split; reflexivity.
Qed.

(** Once the element has been looked up, the screenshot step ends with the
    destruction of the driver whatever the screenshot calls do. *)
Lemma take_screenshot_destroys E tr element :
  (forall tr' ev e, answer_unit E tr' ev = Some e -> is_Exception e = true) ->
  last (fst (take_screenshot element E tr)) = Some DriverQuit.
Proof.
  intros Hexc. unfold take_screenshot, try_finally.
  destruct (try_except _ _ _ E tr) as [tr' r].
  pose proof (destroy_webdriver_returns E tr' Hexc) as [Hr Hl].
  destruct (destroy_webdriver E tr') as [tr'' [[]|e]]; simpl in *;
    [exact Hl | discriminate].
Qed.

(** C4, at the failing input: the driver has been launched, the element is
    not found at either attempt, and the exception leaves [deliver_dashboard]
    and [_get_slice_visualization] without any call of [close] or [quit]. *)
Theorem element_lookup_failure_leaks_webdriver :
  deliver_dashboard 7 None (Some "#reports") attachment false
    (sample_env None element_missing upload_ok) []
  = ([QueryDashboard 7; DriverInit "firefox" (webdriver_kwargs sample_config "firefox");
      DriverGet "http://0.0.0.0:8080/Superset.welcome";
      FindElementsById "loginbox"; SetWindowSize 1600 2000;
      DriverGet "http://0.0.0.0:8080/Superset.dashboard"; Sleep 30;
      FindElementByClassName "grid-container"; Sleep 30;
      FindElementByClassName "grid-container"],
     Raise WebDriverException) /\
  _get_slice_visualization (mkSlice 9 "Revenue") attachment
    (sample_env None element_missing upload_ok) []
  = ([DriverInit "firefox" (webdriver_kwargs sample_config "firefox");
      DriverGet "http://0.0.0.0:8080/Superset.welcome";
      FindElementsById "loginbox"; SetWindowSize 3000 1200;
      DriverGet "http://0.0.0.0:8080/Superset.slice"; Sleep 30;
      FindElementByClassName "chart-container"; Sleep 30;
      FindElementByClassName "chart-container"],
     Raise WebDriverException).
Proof. split; reflexivity. Qed.

(** ** The celery job *)

(** C8.  When the store has no record under the schedule id, or the record is
    not active, [schedule_email_report] makes the store query, logs one line
    and returns normally: no driver, fetch, e-mail or chat call is made. *)
Theorem schedule_email_report_ignores_inactive E tr report_type schedule_id
    recipients slack_channel :
  (answer_schedule E tr report_type schedule_id = Ok None \/
   exists schedule,
     answer_schedule E tr report_type schedule_id = Ok (Some schedule) /\
     active schedule = false) ->
  schedule_email_report report_type schedule_id recipients slack_channel E tr
  = (tr ++ [QuerySchedule report_type schedule_id;
            LogInfo "Ignoring deactivated schedule"], Ok tt).
Proof.
  intros [Hnone | (schedule & Hsome & Hinactive)];
    unfold schedule_email_report, bind.
  - rewrite Hnone. unfold log_info. rewrite <- app_assoc. reflexivity.
  - rewrite Hsome, Hinactive. unfold log_info. simpl.
    rewrite <- app_assoc. reflexivity.
Qed.

Lemma schedule_email_report_ignores_inactive_witness :
  schedule_email_report dashboard 1 (Some "ann@example.org") (Some "#reports")
    (sample_env
       (Some {| active := false;
                recipients := Some "bob@example.org";
                slack_channel := None;
                delivery_type := inline;
                deliver_as_group := true;
                dashboard_id := 7;
                slice_id := 0;
                email_format := visualization |})
       no_failure upload_ok) []
  = ([] ++ [QuerySchedule dashboard 1;
            LogInfo "Ignoring deactivated schedule"], Ok tt).
Proof.
  apply schedule_email_report_ignores_inactive.
  right. eexists. split; reflexivity.
Defined.

Lemma truthy_spec (o : option string) :
  truthy o = true <-> exists s, o = Some s /\ s <> "".
Proof.
  destruct o as [[|a s]|]; simpl; split; try discriminate.
  - intros (s & [= <-] & Hs). congruence.
  - intros _. eexists. split; [reflexivity | discriminate].
  - intros (s' & [= <-] & Hs). reflexivity.
  - intros (s & Hs & _). discriminate.
Qed.

(** C10.  In [schedule_email_report] on an active schedule, the recipients
    (and likewise the chat channel) the job goes on with are the override
    argument when that is a non-empty string, and the value stored on the
    schedule when the override is [None] or the empty string; these resolved
    values are the ones logged and handed to the delivery. *)
Theorem schedule_email_report_overrides E tr report_type schedule_id
    recipients_arg slack_channel_arg schedule :
  answer_schedule E tr report_type schedule_id = Ok (Some schedule) ->
  active schedule = true ->
  exists recipients' slack_channel',
    resolve_targets schedule recipients_arg slack_channel_arg
      = (recipients', slack_channel') /\
    (forall s, recipients_arg = Some s -> s <> "" ->
       recipients' = recipients_arg) /\
    (recipients_arg = None \/ recipients_arg = Some "" ->
       recipients' = recipients schedule) /\
    (recipients' = recipients_arg ->
       (exists s, recipients_arg = Some s /\ s <> "") \/
       recipients_arg = recipients schedule) /\
    (forall s, slack_channel_arg = Some s -> s <> "" ->
       slack_channel' = slack_channel_arg) /\
    (slack_channel_arg = None \/ slack_channel_arg = Some "" ->
       slack_channel' = slack_channel schedule) /\
    (slack_channel' = slack_channel_arg ->
       (exists s, slack_channel_arg = Some s /\ s <> "") \/
       slack_channel_arg = slack_channel schedule) /\
    schedule_email_report report_type schedule_id recipients_arg
      slack_channel_arg E tr
    = (log_info ("Starting report for slack: " +:+ str_of slack_channel'
                 +:+ " and recipients: " +:+ str_of recipients' +:+ ".") >>>
       match report_type with
       | dashboard =>
           deliver_dashboard (dashboard_id schedule) recipients'
             slack_channel' (delivery_type schedule)
             (deliver_as_group schedule)
       | slice =>
           deliver_slice (slice_id schedule) recipients' slack_channel'
             (delivery_type schedule) (email_format schedule)
             (deliver_as_group schedule)
       | unknown_type => raise (RuntimeError "Unknown report type")
       end) E (tr ++ [QuerySchedule report_type schedule_id]).
Proof.
  intros Hsome Hactive.
  exists (py_or recipients_arg (recipients schedule)),
         (py_or slack_channel_arg (slack_channel schedule)).
  split; [reflexivity|].
  assert (Hyes : forall o stored s, o = Some s -> s <> "" -> py_or o stored = o).
  { intros o stored s -> Hs. unfold py_or.
    destruct s; [congruence | reflexivity]. }
  assert (Hno : forall o stored, o = None \/ o = Some "" -> py_or o stored = stored).
  { intros o stored [-> | ->]; reflexivity. }
  assert (Honly : forall o stored, py_or o stored = o ->
            (exists s, o = Some s /\ s <> "") \/ o = stored).
  { intros o stored. unfold py_or.
    destruct (truthy o) eqn:Ht; [|intros ->; right; reflexivity].
    intros _. left. apply truthy_spec. exact Ht. }
  split; [eauto|]. split; [eauto|]. split; [eauto|].
  split; [eauto|]. split; [eauto|]. split; [eauto|].
  unfold schedule_email_report at 1. unfold bind at 1.
  rewrite Hsome, Hactive. reflexivity.
Qed.

Lemma schedule_email_report_overrides_witness :
  exists recipients' slack_channel',
    resolve_targets sample_schedule (Some "") (Some "#ops")
      = (recipients', slack_channel') /\
    recipients' = recipients sample_schedule /\
    slack_channel' = Some "#ops".
Proof.
  destruct (schedule_email_report_overrides
              (sample_env (Some sample_schedule) no_failure upload_ok) []
              dashboard 1 (Some "") (Some "#ops") sample_schedule
              eq_refl eq_refl)
    as (r & s & Hres & _ & Hr & _ & Hs & _).
  exists r, s. split; [exact Hres|]. split.
  - apply Hr. right. reflexivity.
  - apply (Hs "#ops"); [reflexivity | discriminate].
Defined.

(** ** Report content *)







(** * Further properties *)

(** ** The cron window expander, continued *)

(** X1.  Every instant [next_schedules] yields lies in the half-open window
    and is an instant at which the cron expression fires. *)
Theorem next_schedules_in_window c start_at stop_at resolution :
  croniter_ok c ->
  exists l, next_schedules c start_at stop_at resolution = Some l /\
    Forall (fun t => start_at <= t < stop_at /\ fires c t = true) l.
Proof.
  intros Hc.
  destruct (next_schedules_total c start_at stop_at resolution Hc) as [l Hl].
  exists l. split; [exact Hl|].
  exact (loop_in_window c start_at stop_at resolution _ _ _ l
           (get_next_fires c Hc) Hl).
Qed.

Lemma next_schedules_in_window_witness :
  croniter_ok (every 1200) /\
  exists l, next_schedules (every 1200) 1000 5000 0 = Some l /\
    Forall (fun t => 1000 <= t < 5000 /\ fires (every 1200) t = true) l.
Proof.
  assert (Hc : croniter_ok (every 1200)) by (apply every_ok; lia).
  split; [exact Hc|].
  apply (next_schedules_in_window (every 1200) 1000 5000 0 Hc).
Defined.

Section debounce.
Variable c : croniter.
Variables start_at stop_at resolution : Z.
Hypothesis Hc : croniter_ok c.

(** A candidate of the window is dropped only for being less than
    [resolution] after [previous] or after an instant yielded before it. *)
Lemma loop_dropped fuel : forall cur previous l t,
  all_next_loop c fuel cur previous start_at stop_at resolution = Some l ->
  previous <= cur -> cur < t -> start_at <= t < stop_at ->
  fires c t = true ->
  In t l \/
  (exists a, (a = previous \/ In a l) /\ a < t /\ t - a < resolution).
Proof.
  induction fuel as [|fuel IH]; intros cur previous l t H Hp Hct Hw Hft;
    [discriminate|].
  pose proof (get_next_gt c Hc cur) as Hgt.
  pose proof (get_next_least c Hc cur t Hct Hft) as Hle.
  simpl in H.
  destruct (Z.leb_spec stop_at (get_next c cur)) as [Hstop|Hstop]; [lia|].
  destruct (Z.ltb_spec (get_next c cur) start_at) as [Hlow|Hlow].
  { apply (IH (get_next c cur) previous l t); auto; lia. }
  destruct (Z.ltb_spec (get_next c cur - previous) resolution) as [Hdeb|Hdeb].
  - destruct (Z.eq_dec (get_next c cur) t) as [Heq|Hne].
    + right. exists previous. split; [left; reflexivity|]. lia.
    + apply (IH (get_next c cur) previous l t); auto; lia.
  - destruct (all_next_loop c fuel (get_next c cur) (get_next c cur)
                start_at stop_at resolution) as [l'|] eqn:E; [|discriminate].
    injection H as <-.
    destruct (Z.eq_dec (get_next c cur) t) as [Heq|Hne];
      [left; left; exact Heq|].
    destruct (IH (get_next c cur) (get_next c cur) l' t E) as [Hin|Hclose];
      try lia; auto.
    + left. right. exact Hin.
    + destruct Hclose as (a & [Ha|Ha] & Hlt & Hd); right; exists a.
      * split; [right; left; symmetry; exact Ha | lia].
      * split; [right; right; exact Ha | lia].
Qed.
End debounce.

(** X2.  A cron instant of the window that [next_schedules] does not yield
    is less than [resolution] seconds after an instant it does yield, or less
    than [resolution] after the sentinel one day before [start_at]. *)
Theorem next_schedules_dropped_only_if_close c start_at stop_at resolution :
  croniter_ok c ->
  exists l, next_schedules c start_at stop_at resolution = Some l /\
    forall t, start_at <= t < stop_at -> fires c t = true ->
      In t l \/
      (exists a, In a l /\ a < t /\ t - a < resolution) \/
      t - (start_at - one_day) < resolution.
Proof.
  intros Hc.
  destruct (next_schedules_total c start_at stop_at resolution Hc) as [l Hl].
  exists l. split; [exact Hl|]. intros t Hw Hf.
  unfold next_schedules, one_second, one_day in *.
  destruct (loop_dropped c start_at stop_at resolution Hc _ _ _ l t Hl
              ltac:(lia) ltac:(lia) Hw Hf)
    as [Hin | (a & [Ha|Ha] & Hlt & Hd)].
  - left. exact Hin.
  - right. right. subst a. exact Hd.
  - right. left. exists a. auto.
Qed.

Lemma next_schedules_dropped_only_if_close_witness :
  croniter_ok minutely /\
  exists l, next_schedules minutely 0 600 150 = Some l /\
    forall t, 0 <= t < 600 -> fires minutely t = true ->
      In t l \/
      (exists a, In a l /\ a < t /\ t - a < 150) \/
      t - (0 - one_day) < 150.
Proof.
  split; [exact minutely_ok|].
  apply (next_schedules_dropped_only_if_close minutely 0 600 150 minutely_ok).
Defined.

Lemma spaced_span (r stop : Z) : forall l a,
  0 <= r ->
  consecutive (fun a b => r <= b - a) (a :: l) ->
  Forall (fun t => t < stop) (a :: l) ->
  a + Z.of_nat (length l) * r < stop.
Proof.
  induction l as [|b l IH]; intros a Hr Hcons Hall.
  - apply Forall_inv in Hall. simpl. lia.
  - destruct Hcons as [Hab Hcons].
    apply Forall_inv_tail in Hall.
    pose proof (IH b Hr Hcons Hall) as Hb.
    change (length (b :: l)) with (S (length l)). lia.
Qed.

(** X3.  With a resolution that is not negative, the instants yielded for a
    window span less than the window: there are [n] of them only if
    [(n - 1) * resolution < stop_at - start_at]. *)
Theorem next_schedules_count c start_at stop_at resolution :
  croniter_ok c ->
  0 <= resolution ->
  exists l, next_schedules c start_at stop_at resolution = Some l /\
    (l = [] \/
     (Z.of_nat (length l) - 1) * resolution < stop_at - start_at).
Proof.
  intros Hc Hr.
  destruct (next_schedules_total c start_at stop_at resolution Hc) as [l Hl].
  exists l. split; [exact Hl|].
  destruct l as [|a l]; [left; reflexivity | right].
  pose proof (loop_in_window c start_at stop_at resolution _ _ _ _
                (get_next_fires c Hc) Hl) as Hwin.
  destruct (loop_spacing c start_at stop_at resolution Hc _ _ _ _ Hl)
    as (_ & _ & Hcons & _).
  assert (Hall : Forall (fun t => t < stop_at) (a :: l)).
  { eapply Forall_impl; [exact Hwin|]. simpl. intros t [Ht _]. lia. }
  pose proof (spaced_span resolution stop_at l a Hr Hcons Hall) as Hspan.
  apply Forall_inv in Hwin.
  change (length (a :: l)) with (S (length l)). lia.
Qed.

Lemma next_schedules_count_witness :
  croniter_ok minutely /\ 0 <= 900 /\
  exists l, next_schedules minutely 0 3600 900 = Some l /\
    (l = [] \/ (Z.of_nat (length l) - 1) * 900 < 3600 - 0).
Proof.
  split; [exact minutely_ok|]. split; [lia|].
  apply (next_schedules_count minutely 0 3600 900 minutely_ok). lia.
Defined.

Lemma sorted_with_same_elements : forall l1 l2 : list Z,
  StronglySorted Z.lt l1 -> StronglySorted Z.lt l2 ->
  (forall t, In t l1 <-> In t l2) -> l1 = l2.
Proof.
  induction l1 as [|a l1 IH]; intros l2 H1 H2 Hsame.
  - destruct l2 as [|b l2]; [reflexivity|].
    destruct (proj2 (Hsame b) (or_introl eq_refl)).
  - destruct l2 as [|b l2].
    + destruct (proj1 (Hsame a) (or_introl eq_refl)).
    + apply StronglySorted_inv in H1 as [H1 Ha].
      apply StronglySorted_inv in H2 as [H2 Hb].
      rewrite List.Forall_forall in Ha, Hb.
      assert (Hab : a = b).
      { destruct (proj1 (Hsame a) (or_introl eq_refl)) as [Heq|Hin];
          [symmetry; exact Heq|].
        destruct (proj2 (Hsame b) (or_introl eq_refl)) as [Heq|Hin'];
          [exact Heq|].
        pose proof (Ha _ Hin'). pose proof (Hb _ Hin). lia. }
      subst b. f_equal. apply IH; auto.
      intros t. split; intros Hin.
      * destruct (proj1 (Hsame t) (or_intror Hin)) as [Heq|Hin2]; [|exact Hin2].
        pose proof (Ha _ Hin). lia.
      * destruct (proj2 (Hsame t) (or_intror Hin)) as [Heq|Hin1]; [|exact Hin1].
        pose proof (Hb _ Hin). lia.
Qed.

Lemma sorted_app (l1 l2 : list Z) :
  StronglySorted Z.lt l1 -> StronglySorted Z.lt l2 ->
  (forall a b, In a l1 -> In b l2 -> a < b) ->
  StronglySorted Z.lt (l1 ++ l2).
Proof.
  induction l1 as [|a l1 IH]; intros H1 H2 Hlt; [exact H2|].
  apply StronglySorted_inv in H1 as [H1 Ha]. simpl. constructor.
  - apply IH; auto. intros x y Hx Hy. apply Hlt; [right; exact Hx | exact Hy].
  - rewrite List.Forall_forall in *. intros x Hx.
    apply in_app_or in Hx as [Hx|Hx]; [auto|].
    apply Hlt; [left; reflexivity | exact Hx].
Qed.

(** With a resolution of zero or less the result is the sorted list of the
    cron instants of the window. *)
Lemma next_schedules_all c start_at stop_at resolution l :
  croniter_ok c -> resolution <= 0 ->
  next_schedules c start_at stop_at resolution = Some l ->
  StronglySorted Z.lt l /\
  forall t, In t l <-> (start_at <= t < stop_at /\ fires c t = true).
Proof.
  intros Hc Hr Hl.
  destruct (loop_spacing c start_at stop_at resolution Hc _ _ _ l Hl)
    as (_ & Hsorted & _ & _).
  split; [exact Hsorted|]. intros t. split.
  - intros Hin.
    pose proof (loop_in_window c start_at stop_at resolution _ _ _ l
                  (get_next_fires c Hc) Hl) as Hwin.
    rewrite List.Forall_forall in Hwin. exact (Hwin t Hin).
  - intros [Hw Hf]. unfold next_schedules in Hl.
    apply (loop_complete c start_at stop_at resolution Hc
             (S (Z.to_nat (stop_at - start_at)))
             (start_at - one_second) (start_at - one_day) l t);
      auto; unfold one_second, one_day; lia.
Qed.

(** X4.  Without debouncing (resolution zero or less), adjacent windows tile:
    the instants of [start_at, mid) followed by those of [mid, stop_at) are
    exactly the instants of [start_at, stop_at), none twice and none
    missing. *)
Theorem next_schedules_adjacent_windows c start_at mid stop_at resolution :
  croniter_ok c ->
  resolution <= 0 ->
  start_at <= mid <= stop_at ->
  exists l1 l2,
    next_schedules c start_at mid resolution = Some l1 /\
    next_schedules c mid stop_at resolution = Some l2 /\
    next_schedules c start_at stop_at resolution = Some (l1 ++ l2).
Proof.
  intros Hc Hr Hmid.
  destruct (next_schedules_total c start_at mid resolution Hc) as [l1 Hl1].
  destruct (next_schedules_total c mid stop_at resolution Hc) as [l2 Hl2].
  destruct (next_schedules_total c start_at stop_at resolution Hc) as [l Hl].
  exists l1, l2. split; [exact Hl1|]. split; [exact Hl2|].
  rewrite Hl. f_equal.
  destruct (next_schedules_all _ _ _ _ _ Hc Hr Hl1) as [Hs1 Hin1].
  destruct (next_schedules_all _ _ _ _ _ Hc Hr Hl2) as [Hs2 Hin2].
  destruct (next_schedules_all _ _ _ _ _ Hc Hr Hl) as [Hs Hin].
  apply sorted_with_same_elements; [exact Hs | |].
  - apply sorted_app; auto. intros a b Ha Hb.
    apply Hin1 in Ha. apply Hin2 in Hb. lia.
  - intros t. rewrite Hin, in_app_iff, Hin1, Hin2. split.
    + intros [Hw Hf]. destruct (Z.lt_ge_cases t mid); [left|right]; split; auto; lia.
    + intros [[Hw Hf]|[Hw Hf]]; split; auto; lia.
Qed.

Lemma next_schedules_adjacent_windows_witness :
  croniter_ok (every 1200) /\ 0 <= 0 /\ 0 <= 3600 <= 7200 /\
  exists l1 l2,
    next_schedules (every 1200) 0 3600 0 = Some l1 /\
    next_schedules (every 1200) 3600 7200 0 = Some l2 /\
    next_schedules (every 1200) 0 7200 0 = Some (l1 ++ l2).
Proof.
  assert (Hc : croniter_ok (every 1200)) by (apply every_ok; lia).
  split; [exact Hc|]. split; [lia|]. split; [lia|].
  apply (next_schedules_adjacent_windows (every 1200) 0 3600 7200 0 Hc); lia.
Defined.

(** ** The scheduler driver *)

Lemma enqueue_schedules_spec report_type start_at stop_at resolution :
  forall schedules,
    (forall schedule, In schedule schedules -> croniter_ok (crontab schedule)) ->
    exists tasks,
      enqueue_schedules report_type start_at stop_at resolution schedules
        = Some tasks /\
      forall tk, In tk tasks <->
        exists schedule etas,
          In schedule schedules /\
          next_schedules (crontab schedule) start_at stop_at resolution
            = Some etas /\
          In (task_eta tk) etas /\
          task_args tk = (report_type, pk schedule).
Proof.
  induction schedules as [|schedule schedules IH]; intros Hok.
  - exists []. split; [reflexivity|]. intros tk. split; [intros []|].
    intros (schedule & etas & [] & _).
  - destruct IH as (tasks & Hrun & Hspec).
    { intros s Hs. apply Hok. right. exact Hs. }
    destruct (next_schedules_total (crontab schedule) start_at stop_at
                resolution (Hok schedule (or_introl eq_refl))) as [etas Hetas].
    exists (map (apply_async (report_type, pk schedule)) etas ++ tasks).
    split; [simpl; rewrite Hetas, Hrun; reflexivity|].
    intros tk. rewrite in_app_iff, Hspec, in_map_iff. split.
    + intros [(eta & <- & Heta) | (s & l & Hs & Hl & Hin & Hargs)].
      * exists schedule, etas. simpl. auto.
      * exists s, l. simpl. auto.
    + intros (s & l & [<- | Hs] & Hl & Hin & Hargs).
      * left. rewrite Hetas in Hl. injection Hl as <-.
        exists (task_eta tk). split; [|exact Hin].
        destruct tk as [args eta]. simpl in *. rewrite Hargs. reflexivity.
      * right. exists s, l. auto.
Qed.

(** What [schedule_window] enqueues, task by task. *)
Lemma schedule_window_tasks get_scheduler_model report_type
    start_at stop_at resolution :
  (forall table schedule,
     get_scheduler_model report_type = Some table ->
     In schedule table -> croniter_ok (crontab schedule)) ->
  exists tasks,
    schedule_window get_scheduler_model report_type start_at stop_at resolution
      = Some tasks /\
    forall tk, In tk tasks ->
      exists table schedule,
        get_scheduler_model report_type = Some table /\
        In schedule table /\
        active (settings schedule) = true /\
        task_args tk = (report_type, pk schedule) /\
        start_at <= task_eta tk < stop_at /\
        fires (crontab schedule) (task_eta tk) = true.
Proof.
  intros Hok. unfold schedule_window.
  destruct (get_scheduler_model report_type) as [table|] eqn:Hmodel.
  - destruct (enqueue_schedules_spec report_type start_at stop_at resolution
                (List.filter (fun s => active (settings s)) table))
      as (tasks & Hrun & Hspec).
    { intros s Hs. apply filter_In in Hs as [Hs _]. eapply Hok; eauto. }
    exists tasks. split; [exact Hrun|]. intros tk Htk.
    apply Hspec in Htk as (s & etas & Hs & Hetas & Hin & Hargs).
    apply filter_In in Hs as [Hs Hact].
    exists table, s. split; [reflexivity|]. split; [exact Hs|].
    split; [exact Hact|]. split; [exact Hargs|].
    pose proof (loop_in_window (crontab s) start_at stop_at resolution _ _ _
                  etas (get_next_fires _ (Hok table s eq_refl Hs)) Hetas)
      as Hwin.
    rewrite List.Forall_forall in Hwin. exact (Hwin _ Hin).
  - exists []. split; [reflexivity|]. intros tk [].
Qed.

(** X5.  Every task [schedule_window] enqueues is for a schedule of the
    queried table that is active, carries that schedule's report type and
    key, and is due at an instant of the window at which the schedule's cron
    expression fires. *)
Theorem schedule_window_sound get_scheduler_model report_type
    start_at stop_at resolution :
  (forall table schedule,
     get_scheduler_model report_type = Some table ->
     In schedule table -> croniter_ok (crontab schedule)) ->
  exists tasks,
    schedule_window get_scheduler_model report_type start_at stop_at resolution
      = Some tasks /\
    forall tk, In tk tasks ->
      exists table schedule,
        get_scheduler_model report_type = Some table /\
        In schedule table /\
        active (settings schedule) = true /\
        task_args tk = (report_type, pk schedule) /\
        start_at <= task_eta tk < stop_at /\
        fires (crontab schedule) (task_eta tk) = true.
Proof. exact (schedule_window_tasks get_scheduler_model report_type start_at stop_at resolution). Qed.

Lemma sample_models_ok report_type table schedule :
  sample_models report_type = Some table ->
  In schedule table -> croniter_ok (crontab schedule).
Proof.
  destruct report_type; simpl; intros [= <-]; simpl.
  - intros [<- | [<- | [<- | []]]]; simpl;
      first [exact hourly_ok | exact minutely_ok | apply every_ok; lia].
  - intros [].
Qed.

Lemma schedule_window_sound_witness :
  exists tasks,
    schedule_window sample_models dashboard 0 3600 900 = Some tasks /\
    forall tk, In tk tasks ->
      exists table schedule,
        sample_models dashboard = Some table /\
        In schedule table /\
        active (settings schedule) = true /\
        task_args tk = (dashboard, pk schedule) /\
        0 <= task_eta tk < 3600 /\
        fires (crontab schedule) (task_eta tk) = true.
Proof.
  apply (schedule_window_sound sample_models dashboard 0 3600 900).
  exact (sample_models_ok dashboard).
Defined.

(** X6.  Without debouncing (resolution zero or less), [schedule_window]
    misses nothing: for every active schedule of the table and every instant
    of the window at which its cron expression fires, the task for that
    schedule and instant is enqueued. *)
Theorem schedule_window_complete get_scheduler_model report_type
    start_at stop_at resolution table schedule eta :
  (forall schedule, In schedule table -> croniter_ok (crontab schedule)) ->
  resolution <= 0 ->
  get_scheduler_model report_type = Some table ->
  In schedule table ->
  active (settings schedule) = true ->
  start_at <= eta < stop_at ->
  fires (crontab schedule) eta = true ->
  exists tasks,
    schedule_window get_scheduler_model report_type start_at stop_at resolution
      = Some tasks /\
    In (apply_async (report_type, pk schedule) eta) tasks.
Proof.
  intros Hok Hr Hmodel Hs Hact Hw Hf. unfold schedule_window. rewrite Hmodel.
  destruct (enqueue_schedules_spec report_type start_at stop_at resolution
              (List.filter (fun s => active (settings s)) table))
    as (tasks & Hrun & Hspec).
  { intros s Hin. apply filter_In in Hin as [Hin _]. auto. }
  exists tasks. split; [exact Hrun|]. apply Hspec.
  destruct (next_schedules_total (crontab schedule) start_at stop_at
              resolution (Hok schedule Hs)) as [etas Hetas].
  exists schedule, etas. split; [apply filter_In; auto|].
  split; [exact Hetas|]. split; [|reflexivity]. simpl.
  apply (next_schedules_all _ _ _ _ _ (Hok schedule Hs) Hr Hetas). auto.
Qed.

Lemma schedule_window_complete_witness :
  exists tasks,
    schedule_window sample_models dashboard 0 3600 0 = Some tasks /\
    In (apply_async (dashboard, 3) 2400) tasks.
Proof.
  apply (schedule_window_complete sample_models dashboard 0 3600 0
           [mkEmailSchedule 1 hourly sample_schedule;
            mkEmailSchedule 2 minutely
              {| active := false;
                 recipients := None;
                 slack_channel := Some "#ops";
                 delivery_type := inline;
                 deliver_as_group := true;
                 dashboard_id := 8;
                 slice_id := 0;
                 email_format := visualization |};
            mkEmailSchedule 3 (every 1200) sample_schedule]
           (mkEmailSchedule 3 (every 1200) sample_schedule) 2400).
  - exact (fun s => sample_models_ok dashboard _ s eq_refl).
  - lia.
  - reflexivity.
  - right. right. left. reflexivity.
  - reflexivity.
  - lia.
  - reflexivity.
Defined.

(** X7.  [schedule_window] enqueues nothing when the report type has no
    model, when no schedule of the table is active, or when the window is
    empty. *)
Theorem schedule_window_nothing get_scheduler_model report_type
    start_at stop_at resolution :
  (forall table schedule,
     get_scheduler_model report_type = Some table ->
     In schedule table -> croniter_ok (crontab schedule)) ->
  get_scheduler_model report_type = None \/
  (exists table,
     get_scheduler_model report_type = Some table /\
     forall schedule, In schedule table -> active (settings schedule) = false) \/
  stop_at <= start_at ->
  schedule_window get_scheduler_model report_type start_at stop_at resolution
    = Some [].
Proof.
  intros Hok Hcase.
  destruct (schedule_window_tasks get_scheduler_model report_type
              start_at stop_at resolution Hok) as (tasks & Hrun & Hsound).
  rewrite Hrun. f_equal. destruct tasks as [|tk tasks]; [reflexivity|].
  destruct (Hsound tk (or_introl eq_refl))
    as (table & s & Hmodel & Hs & Hact & _ & Hw & _).
  destruct Hcase as [Hnone | [(table' & Hmodel' & Hoff) | Hempty]].
  - congruence.
  - rewrite Hmodel in Hmodel'. injection Hmodel' as <-.
    rewrite (Hoff s Hs) in Hact. discriminate.
  - lia.
Qed.

Lemma schedule_window_nothing_witness :
  schedule_window sample_models dashboard 3600 3600 0 = Some [] /\
  schedule_window sample_models unknown_type 0 3600 0 = Some [].
Proof.
  split.
  - apply (schedule_window_nothing sample_models dashboard 3600 3600 0
             (sample_models_ok dashboard)).
    right. right. lia.
  - apply (schedule_window_nothing sample_models unknown_type 0 3600 0
             (sample_models_ok unknown_type)).
    left. reflexivity.
Defined.

(** ** The webdriver, continued *)

(** The two runs of [destroy_webdriver]. *)
Lemma destroy_webdriver_run E tr :
  only_Exceptions E ->
  (answer_unit E tr DriverClose = None ->
   destroy_webdriver E tr = (tr ++ [DriverClose; DriverQuit], Ok tt)) /\
  (answer_unit E tr DriverClose <> None ->
   destroy_webdriver E tr
   = (tr ++ [DriverClose; Sleep 0; DriverClose; DriverQuit], Ok tt)).
Proof.
  intros Hexc.
  unfold destroy_webdriver, retry_call, retry_internal, try_except, bind,
    call_unit, sleep, ret, raise.
  split; intros Hfirst.
  - rewrite Hfirst. cbn.
    destruct (answer_unit E (tr ++ [DriverClose]) DriverQuit) as [e|] eqn:Hq;
      [rewrite (Hexc _ _ _ Hq)|]; rewrite <- !app_assoc; reflexivity.
  - destruct (answer_unit E tr DriverClose) as [e|] eqn:Hc; [|congruence].
    rewrite (Hexc _ _ _ Hc). cbn.
    repeat match goal with
           | |- context [answer_unit E ?t ?ev] =>
               let Ha := fresh "Ha" in
               destruct (answer_unit E t ev) as [?e|] eqn:Ha;
               [rewrite ?(Hexc _ _ _ Ha)|]; cbn
           end;
      rewrite <- !app_assoc; reflexivity.
Qed.

(** X10.  When [close] and [quit] fail only with [Exception]s,
    [destroy_webdriver] returns normally; it calls [close] once, or twice
    with a sleep of zero seconds between when the first call fails, and then
    [quit] exactly once, whatever [close] did. *)
Theorem destroy_webdriver_calls E tr :
  only_Exceptions E ->
  (answer_unit E tr DriverClose = None ->
   destroy_webdriver E tr = (tr ++ [DriverClose; DriverQuit], Ok tt)) /\
  (answer_unit E tr DriverClose <> None ->
   destroy_webdriver E tr
   = (tr ++ [DriverClose; Sleep 0; DriverClose; DriverQuit], Ok tt)).
Proof. exact (destroy_webdriver_run E tr). Qed.

Lemma destroy_webdriver_calls_witness :
  only_Exceptions (sample_env None all_calls_fail upload_ok) /\
  destroy_webdriver (sample_env None all_calls_fail upload_ok) []
  = ([] ++ [DriverClose; Sleep 0; DriverClose; DriverQuit], Ok tt).
Proof.
  assert (Hexc : only_Exceptions (sample_env None all_calls_fail upload_ok)).
  { intros tr ev e [= <-]. reflexivity. }
  split; [exact Hexc|].
  apply (destroy_webdriver_calls
           (sample_env None all_calls_fail upload_ok) [] Hexc).
  discriminate.
Defined.

(** X11.  After the element lookup, the screenshot step returns the element
    screenshot when that call returns, falls back to the whole-page
    screenshot when it raises [WebDriverException], and lets any other
    exception through; in all three cases the driver has been destroyed by
    then ([quit] is the last call made). *)
Theorem take_screenshot_fallback E tr :
  only_Exceptions E ->
  last (fst (take_screenshot (Some tt) E tr)) = Some DriverQuit /\
  (forall png, answer_bytes E tr ScreenshotAsPng = Ok png ->
     snd (take_screenshot (Some tt) E tr) = Ok png) /\
  (answer_bytes E tr ScreenshotAsPng = Raise WebDriverException ->
     snd (take_screenshot (Some tt) E tr)
     = answer_bytes E (tr ++ [ScreenshotAsPng]) DriverScreenshot) /\
  (forall e, answer_bytes E tr ScreenshotAsPng = Raise e ->
     e <> WebDriverException ->
     snd (take_screenshot (Some tt) E tr) = Raise e).
Proof.
  intros Hexc. split; [apply take_screenshot_destroys; exact Hexc|].
  assert (Hbody : forall tr' r,
            try_except (call_bytes ScreenshotAsPng) is_WebDriverException
              (fun _ => call_bytes DriverScreenshot) E tr = (tr', r) ->
            snd (take_screenshot (Some tt) E tr) = r).
  { intros tr' r Hb. unfold take_screenshot, try_finally. rewrite Hb.
    pose proof (destroy_webdriver_returns E tr' Hexc) as [Hr _].
    destruct (destroy_webdriver E tr') as [tr'' [[]|e]]; simpl in *;
      [reflexivity | discriminate]. }
  split; [|split].
  - intros png Hpng. eapply Hbody.
    unfold try_except, call_bytes. rewrite Hpng. reflexivity.
  - intros Hwde. eapply Hbody.
    unfold try_except, call_bytes. rewrite Hwde. reflexivity.
  - intros e He Hne. eapply Hbody.
    unfold try_except, call_bytes. rewrite He.
    destruct e; try reflexivity. congruence.
Qed.

Lemma take_screenshot_fallback_witness :
  only_Exceptions (sample_env None all_calls_fail upload_ok) /\
  last (fst (take_screenshot (Some tt)
               (sample_env None all_calls_fail upload_ok) []))
  = Some DriverQuit.
Proof.
  assert (Hexc : only_Exceptions (sample_env None all_calls_fail upload_ok)).
  { intros tr ev e [= <-]. reflexivity. }
  split; [exact Hexc|].
  apply (take_screenshot_fallback
           (sample_env None all_calls_fail upload_ok) [] Hexc).
Defined.

(** ** What the calls of a run look like *)

Section emits.
Variable E : env.
Variable P : event -> Prop.

Lemma emits_pure {A} (r : env -> trace -> result A) :
  emits E P (fun E tr => (tr, r E tr)).
Proof. intros tr. exists []. rewrite app_nil_r. split; [reflexivity|constructor]. Qed.

Lemma emits_ret {A} (a : A) : emits E P (ret a).
Proof. apply (emits_pure (fun _ _ => Ok a)). Qed.

Lemma emits_raise {A} (e : exn) : emits E P (@raise A e).
Proof. apply (emits_pure (fun _ _ => Raise e)). Qed.

Lemma emits_event {A} (ev : event) (answer : env -> trace -> result A) :
  P ev -> emits E P (fun E tr => (tr ++ [ev], answer E tr)).
Proof. intros Hev tr. exists [ev]. split; [reflexivity|]. repeat constructor. exact Hev. Qed.

Lemma emits_call_unit (ev : event) : P ev -> emits E P (call_unit ev).
Proof.
  intros Hev.
  apply (emits_event ev
           (fun E tr => match answer_unit E tr ev with
                        | Some e => Raise e
                        | None => Ok tt
                        end) Hev).
Qed.

Lemma emits_bind {A B} (m : M A) (k : A -> M B) :
  emits E P m -> (forall a, emits E P (k a)) -> emits E P (bind m k).
Proof.
  intros Hm Hk tr. unfold bind.
  destruct (Hm tr) as (evs & Htr & Hevs).
  destruct (m E tr) as [tr' [a|e]]; simpl in Htr; subst tr'.
  - destruct (Hk a (tr ++ evs)) as (evs' & Htr' & Hevs').
    exists (evs ++ evs'). rewrite Htr', app_assoc. split; [reflexivity|].
    apply Forall_app. split; assumption.
  - exists evs. split; [reflexivity | exact Hevs].
Qed.

Lemma emits_ask {A} (k : env -> M A) :
  emits E P (k E) -> emits E P (bind ask k).
Proof. intros Hk tr. exact (Hk tr). Qed.

Lemma emits_try_except {A} (m : M A) (catches : exn -> bool)
    (handler : exn -> M A) :
  emits E P m -> (forall e, emits E P (handler e)) ->
  emits E P (try_except m catches handler).
Proof.
  intros Hm Hh tr. unfold try_except.
  destruct (Hm tr) as (evs & Htr & Hevs).
  destruct (m E tr) as [tr' [a|e]]; simpl in Htr; subst tr'.
  - exists evs. split; [reflexivity | exact Hevs].
  - destruct (catches e); [|exists evs; split; [reflexivity | exact Hevs]].
    destruct (Hh e (tr ++ evs)) as (evs' & Htr' & Hevs').
    exists (evs ++ evs'). rewrite Htr', app_assoc. split; [reflexivity|].
    apply Forall_app. split; assumption.
Qed.

Lemma emits_try_finally {A} (m : M A) (cleanup : M unit) :
  emits E P m -> emits E P cleanup -> emits E P (try_finally m cleanup).
Proof.
  intros Hm Hc tr. unfold try_finally.
  destruct (Hm tr) as (evs & Htr & Hevs).
  destruct (m E tr) as [tr' r]; simpl in Htr; subst tr'.
  destruct (Hc (tr ++ evs)) as (evs' & Htr' & Hevs').
  exists (evs ++ evs').
  destruct (cleanup E (tr ++ evs)) as [tr'' [[]|e]]; simpl in Htr'; subst tr'';
    rewrite app_assoc; (split; [reflexivity|]);
    apply Forall_app; split; assumption.
Qed.

Lemma emits_bind_ret {A B} (a : A) (k : A -> M B) :
  emits E P (k a) -> emits E P (bind (ret a) k).
Proof. intros Hk tr. exact (Hk tr). Qed.

Lemma emits_bind_raise {A B} (e : exn) (k : A -> M B) :
  emits E P (bind (raise e) k).
Proof. intros tr. exists []. rewrite app_nil_r. split; [reflexivity|constructor]. Qed.

Lemma emits_for_each {A} (xs : list A) (f : A -> M unit) :
  (forall x, In x xs -> emits E P (f x)) -> emits E P (for_each xs f).
Proof.
  induction xs as [|x xs IH]; intros Hf; simpl.
  - apply emits_ret.
  - apply emits_bind; [apply Hf; left; reflexivity | intros _].
    apply IH. intros y Hy. apply Hf. right. exact Hy.
Qed.

Lemma emits_retry_internal {A} (f : M A) (exceptions : exn -> bool)
    (backoff : Z) :
  emits E P f -> (forall d, P (Sleep d)) ->
  forall tries delay,
    emits E P (retry_internal f exceptions tries delay backoff).
Proof.
  intros Hf Hsleep. induction tries as [|tries IH]; intros delay; simpl.
  - apply emits_ret.
  - apply emits_try_except.
    + apply emits_bind; [exact Hf | intros a; apply emits_ret].
    + intros e. destruct tries as [|tries']; [apply emits_raise|].
      apply emits_bind; [|intros _; apply IH].
      apply (emits_event (Sleep delay) (fun _ _ => Ok tt)). apply Hsleep.
Qed.

Lemma emits_when_truthy (target : option string) (f : string -> M unit) :
  (truthy target = true -> forall s, emits E P (f s)) ->
  emits E P (when_truthy target f).
Proof.
  intros Hf. destruct target as [[|a s]|]; simpl; try apply emits_ret.
  apply Hf. reflexivity.
Qed.

Hypothesis Hplain : forall ev, plain ev -> P ev.

Lemma emits_sleep (d : Z) : emits E P (sleep d).
Proof. apply (emits_event (Sleep d) (fun _ _ => Ok tt)). apply Hplain. exact I. Qed.

Lemma emits_log_info (msg : string) : emits E P (log_info msg).
Proof. apply (emits_event (LogInfo msg) (fun _ _ => Ok tt)). apply Hplain. exact I. Qed.

Lemma emits_destroy_webdriver : emits E P destroy_webdriver.
Proof.
  unfold destroy_webdriver, retry_call.
  apply emits_bind; [|intros _].
  - apply emits_try_except; [|intros _; apply emits_ret].
    apply emits_bind; [|intros _; apply emits_ret].
    apply emits_retry_internal; [|intros d; apply Hplain; exact I].
    apply emits_call_unit, Hplain. exact I.
  - apply emits_try_except; [|intros _; apply emits_ret].
    apply emits_call_unit, Hplain. exact I.
Qed.

Lemma emits_take_screenshot element : emits E P (take_screenshot element).
Proof.
  unfold take_screenshot.
  apply emits_try_finally; [|apply emits_destroy_webdriver].
  apply emits_try_except.
  - destruct element; [|apply emits_raise].
    apply (emits_event ScreenshotAsPng), Hplain. exact I.
  - intros _. apply (emits_event DriverScreenshot), Hplain. exact I.
Qed.

Lemma emits__get_auth_cookies : emits E P _get_auth_cookies.
Proof. apply (emits_event GetAuthCookies), Hplain. exact I. Qed.

Lemma emits_make_msgid idstring domain : emits E P (make_msgid idstring domain).
Proof.
  intros tr. exists []. rewrite app_nil_r. split; [reflexivity | constructor].
Qed.

Lemma emits__generate_report_content delivery_type screenshot name url :
  emits E P (_generate_report_content delivery_type screenshot name url).
Proof.
  destruct delivery_type; simpl; [apply emits_ret|].
  apply emits_ask.
  destruct (split_on "@" _ !! 1%nat); [|apply emits_raise].
  apply emits_bind; [apply emits_make_msgid | intros msgid; apply emits_ret].
Qed.

Lemma emits__get_slice_data slc delivery_type :
  emits E P (_get_slice_data slc delivery_type).
Proof.
  unfold _get_slice_data, _get_url_path.
  apply emits_bind; [apply emits_pure | intros slice_url].
  apply emits_bind; [apply emits_pure | intros friendly].
  apply emits_bind; [apply emits__get_auth_cookies | intros cookies].
  apply emits_bind; [|intros cookie].
  { unfold session_cookie. destruct (last cookies);
      [apply emits_ret | apply emits_raise]. }
  apply emits_bind; [|intros response].
  { apply (emits_event (OpenUrl slice_url cookie)
             (fun E tr => answer_open E tr slice_url cookie)), Hplain.
    exact I. }
  destruct (negb (fst response =? 200)); [apply emits_raise|].
  cbv zeta. destruct delivery_type; [apply emits_ret|].
  destruct (map (split_on ",") (splitlines (snd response)));
    [apply emits_raise | apply emits_ret].
Qed.

Hypothesis Hdriver :
  forall driver_class,
    EMAIL_REPORTS_WEBDRIVER (cfg E) = driver_class ->
    driver_class = "firefox" \/ driver_class = "chrome" ->
    P (DriverInit driver_class (webdriver_kwargs (cfg E) driver_class)).

Lemma emits_create_webdriver : emits E P create_webdriver.
Proof.
  assert (Hrest : forall driver_class,
            EMAIL_REPORTS_WEBDRIVER (cfg E) = driver_class ->
            driver_class = "firefox" \/ driver_class = "chrome" ->
            emits E P
              (call_unit
                 (DriverInit driver_class
                    (webdriver_kwargs (cfg E) driver_class)) >>>
               let! welcome_url := _get_url_path "Superset.welcome" false 0 in
               call_unit (DriverGet welcome_url) >>>
               let! elements :=
                 (fun E tr => (tr ++ [FindElementsById "loginbox"],
                               answer_loginbox E tr)) in
               if negb elements then ret tt
               else
                 let! cookies := _get_auth_cookies in
                 for_each cookies (fun cookie => call_unit (AddCookie cookie)))).
  { intros driver_class Hcfg Hclass.
    apply emits_bind;
      [apply emits_call_unit, Hdriver; assumption | intros _].
    apply emits_bind; [apply emits_pure | intros welcome_url].
    apply emits_bind; [apply emits_call_unit, Hplain; exact I | intros _].
    apply emits_bind; [|intros elements].
    { apply (emits_event (FindElementsById "loginbox")
               (fun E tr => answer_loginbox E tr)), Hplain. exact I. }
    destruct (negb elements); [apply emits_ret|].
    apply emits_bind; [apply emits__get_auth_cookies | intros cookies].
    apply emits_for_each. intros cookie _.
    apply emits_call_unit, Hplain. exact I. }
  unfold create_webdriver. apply emits_ask.
  destruct (String.eqb_spec (EMAIL_REPORTS_WEBDRIVER (cfg E)) "firefox")
    as [Hff|Hff].
  - apply emits_bind_ret. cbv zeta.
    apply Hrest; [exact Hff | left; reflexivity].
  - destruct (String.eqb_spec (EMAIL_REPORTS_WEBDRIVER (cfg E)) "chrome")
      as [Hch|Hch].
    + apply emits_bind_ret. cbv zeta.
      apply Hrest; [exact Hch | right; reflexivity].
    + apply emits_bind_raise.
Qed.

Lemma emits__deliver_email recipients deliver_as_group subject body data images :
  (forall to, P (email_call E subject body data images to)) ->
  emits E P (_deliver_email recipients deliver_as_group subject body data images).
Proof.
  intros Hmail tr. rewrite _deliver_email_run. revert tr.
  apply emits_for_each. intros ev Hev.
  apply in_map_iff in Hev as (to & <- & _). apply emits_call_unit, Hmail.
Qed.

Lemma emits__deliver_slack slack_channel subject body file :
  P (FilesUpload slack_channel file body subject) ->
  emits E P (_deliver_slack slack_channel subject body file).
Proof.
  intros Hup. unfold _deliver_slack.
  apply emits_bind; [|intros _; apply emits_ret].
  apply emits_retry_internal; [|intros d; apply Hplain; exact I].
  unfold _deliver_slack_attempt.
  apply emits_bind; [|intros response].
  { apply (emits_event (FilesUpload slack_channel file body subject)
             (fun E tr => answer_upload E tr
                            (FilesUpload slack_channel file body subject))).
    exact Hup. }
  apply emits_bind; [apply emits_log_info | intros _].
  destruct (truthy (response_file response));
    [apply emits_ret | apply emits_raise].
Qed.

(** The e-mail and chat deliveries that end [deliver_dashboard] and
    [deliver_slice]. *)
Lemma emits_dispatch recipients slack_channel deliver_as_group subject
    report_content :
  (truthy recipients = true ->
   forall subject body data images to,
     P (email_call E subject body data images to)) ->
  (truthy slack_channel = true ->
   forall channels file comment title,
     P (FilesUpload channels file comment title)) ->
  emits E P
    (when_truthy recipients (fun recipients =>
       _deliver_email recipients deliver_as_group subject
         (body report_content) (data_ report_content)
         (images report_content)) >>>
     when_truthy slack_channel (fun slack_channel =>
       _deliver_slack slack_channel subject
         (slack_message report_content) (slack_attachment report_content))).
Proof.
  intros Hmail Hup.
  apply emits_bind; [|intros _]; apply emits_when_truthy.
  - intros Ht s. apply emits__deliver_email. intros to. apply Hmail, Ht.
  - intros Ht s. apply emits__deliver_slack. apply Hup, Ht.
Qed.

Lemma emits_deliver_dashboard dashboard_id recipients slack_channel
    delivery_type deliver_as_group :
  (truthy recipients = true ->
   forall subject body data images to,
     P (email_call E subject body data images to)) ->
  (truthy slack_channel = true ->
   forall channels file comment title,
     P (FilesUpload channels file comment title)) ->
  emits E P
    (deliver_dashboard dashboard_id recipients slack_channel delivery_type
       deliver_as_group).
Proof.
  intros Hmail Hup. unfold deliver_dashboard. apply emits_ask.
  apply emits_bind; [|intros dashboard].
  { apply (emits_event (QueryDashboard dashboard_id)
             (fun E tr => answer_dashboard E tr dashboard_id)), Hplain.
    exact I. }
  apply emits_bind; [apply emits_pure | intros dashboard_url].
  apply emits_bind; [apply emits_pure | intros friendly].
  apply emits_bind; [apply emits_create_webdriver | intros _].
  apply emits_bind; [apply emits_call_unit, Hplain; exact I | intros _].
  apply emits_bind; [apply emits_call_unit, Hplain; exact I | intros _].
  apply emits_bind; [apply emits_sleep | intros _].
  apply emits_bind; [|intros element].
  { apply emits_retry_internal; [|intros d; apply Hplain; exact I].
    apply emits_call_unit, Hplain. exact I. }
  apply emits_bind; [apply emits_take_screenshot | intros screenshot].
  apply emits_bind; [apply emits__generate_report_content | intros rc].
  apply emits_dispatch; assumption.
Qed.

Lemma emits__get_slice_visualization slc delivery_type :
  emits E P (_get_slice_visualization slc delivery_type).
Proof.
  unfold _get_slice_visualization. apply emits_ask.
  apply emits_bind; [apply emits_create_webdriver | intros _].
  apply emits_bind; [apply emits_call_unit, Hplain; exact I | intros _].
  apply emits_bind; [apply emits_pure | intros slice_url].
  apply emits_bind; [apply emits_pure | intros friendly].
  apply emits_bind; [apply emits_call_unit, Hplain; exact I | intros _].
  apply emits_bind; [apply emits_sleep | intros _].
  apply emits_bind; [|intros element].
  { apply emits_retry_internal; [|intros d; apply Hplain; exact I].
    apply emits_call_unit, Hplain. exact I. }
  apply emits_bind; [apply emits_take_screenshot | intros screenshot].
  apply emits__generate_report_content.
Qed.

Lemma emits_deliver_slice slice_id recipients slack_channel delivery_type
    email_format deliver_as_group :
  (truthy recipients = true ->
   forall subject body data images to,
     P (email_call E subject body data images to)) ->
  (truthy slack_channel = true ->
   forall channels file comment title,
     P (FilesUpload channels file comment title)) ->
  emits E P
    (deliver_slice slice_id recipients slack_channel delivery_type
       email_format deliver_as_group).
Proof.
  intros Hmail Hup. unfold deliver_slice. apply emits_ask.
  apply emits_bind; [|intros slc].
  { apply (emits_event (QuerySlice slice_id)
             (fun E tr => answer_slice E tr slice_id)), Hplain.
    exact I. }
  apply emits_bind; [|intros rc].
  { destruct email_format;
      [apply emits__get_slice_visualization | apply emits__get_slice_data
      | apply emits_raise]. }
  apply emits_dispatch; assumption.
Qed.

Lemma emits_schedule_email_report report_type schedule_id recipients
    slack_channel :
  (forall subject body data images to,
     P (email_call E subject body data images to)) ->
  (forall channels file comment title,
     P (FilesUpload channels file comment title)) ->
  emits E P
    (schedule_email_report report_type schedule_id recipients slack_channel).
Proof.
  intros Hmail Hup. unfold schedule_email_report.
  apply emits_bind; [|intros schedule].
  { apply (emits_event (QuerySchedule report_type schedule_id)
             (fun E tr => answer_schedule E tr report_type schedule_id)),
      Hplain.
    exact I. }
  destruct schedule as [schedule|]; [|apply emits_log_info].
  destruct (negb (active schedule)); [apply emits_log_info|].
  cbv zeta. apply emits_bind; [apply emits_log_info | intros _].
  destruct report_type.
  - apply emits_deliver_dashboard; intros _; assumption.
  - apply emits_deliver_slice; intros _; assumption.
  - apply emits_raise.
Qed.
End emits.

Lemma plain_not_email ev : plain ev -> is_email ev = false.
Proof. destruct ev; simpl; intros H; try reflexivity; destruct H. Qed.

Lemma plain_not_upload ev : plain ev -> is_upload ev = false.
Proof. destruct ev; simpl; intros H; try reflexivity; destruct H. Qed.

Lemma plain_configured E ev : plain ev -> configured E ev.
Proof. destruct ev; simpl; intros H; try exact I; destruct H. Qed.

(** X12.  A delivery without recipients makes no [send_email_smtp] call and
    a delivery without chat channel makes no [files_upload] call, for
    dashboards and for slices, whatever the collaborators answer; [None] and
    the empty string both count as absent. *)
Theorem absent_target_never_contacted E id recipients slack_channel
    delivery_type email_format deliver_as_group :
  (truthy recipients = false ->
   emits E (fun ev => is_email ev = false)
     (deliver_dashboard id recipients slack_channel delivery_type
        deliver_as_group) /\
   emits E (fun ev => is_email ev = false)
     (deliver_slice id recipients slack_channel delivery_type email_format
        deliver_as_group)) /\
  (truthy slack_channel = false ->
   emits E (fun ev => is_upload ev = false)
     (deliver_dashboard id recipients slack_channel delivery_type
        deliver_as_group) /\
   emits E (fun ev => is_upload ev = false)
     (deliver_slice id recipients slack_channel delivery_type email_format
        deliver_as_group)).
Proof.
  split; intros Habsent; split;
    first [apply emits_deliver_dashboard | apply emits_deliver_slice];
    try (intros ev; first [apply plain_not_email | apply plain_not_upload]);
    try (intros; reflexivity);
    try (intros Htruthy; rewrite Habsent in Htruthy; discriminate).
Qed.

Lemma absent_target_never_contacted_witness :
  exists evs,
    fst (deliver_dashboard 7 (Some "") (Some "#reports") attachment false
           (sample_env None no_failure upload_ok) []) = [] ++ evs /\
    Forall (fun ev => is_email ev = false) evs.
Proof.
  apply (proj1 (proj1 (absent_target_never_contacted
                         (sample_env None no_failure upload_ok) 7 (Some "")
                         (Some "#reports") attachment visualization false)
                  eq_refl)).
Defined.

Lemma webdriver_kwargs_lookup (c : config) (driver_class : string) :
  (forall key value,
     WEBDRIVER_CONFIGURATION c !! key = Some value ->
     webdriver_kwargs c driver_class !! key = Some value) /\
  (WEBDRIVER_CONFIGURATION c !! "options" = None ->
   webdriver_kwargs c driver_class !! "options"
   = Some (kw_options (mkOptions driver_class ["--headless"]))).
Proof.
  unfold webdriver_kwargs. cbv zeta. split.
  - intros key value Hkey. apply lookup_union_Some_l. exact Hkey.
  - intros Hnone. rewrite lookup_union_r by exact Hnone.
    apply lookup_singleton_eq.
Qed.

(** X13.  Whatever the store and the other collaborators answer, every
    e-mail [schedule_email_report] sends carries the configured BCC address
    and dry-run flag and is a [related] multipart; every driver it launches
    is the configured one, firefox or chrome, is given every keyword argument
    of [WEBDRIVER_CONFIGURATION], and is given the headless options of its
    class unless [WEBDRIVER_CONFIGURATION] sets [options] itself. *)
Theorem schedule_email_report_configured E report_type schedule_id
    recipients slack_channel :
  emits E (configured E)
    (schedule_email_report report_type schedule_id recipients slack_channel).
Proof.
  apply emits_schedule_email_report.
  - apply plain_configured.
  - intros driver_class Hcfg Hclass. simpl.
    split; [symmetry; exact Hcfg|]. split; [exact Hclass|].
    apply webdriver_kwargs_lookup.
  - intros. simpl. auto.
  - intros. exact I.
Qed.

(** The runs of [create_webdriver]. *)
Lemma create_webdriver_run E tr :
  let opened driver_class :=
    tr ++ [DriverInit driver_class (webdriver_kwargs (cfg E) driver_class);
           DriverGet (url_for E "Superset.welcome" false 0);
           FindElementsById "loginbox"] in
  (EMAIL_REPORTS_WEBDRIVER (cfg E) <> "firefox" ->
   EMAIL_REPORTS_WEBDRIVER (cfg E) <> "chrome" ->
   create_webdriver E tr = (tr, Raise UnboundLocalError)) /\
  ((forall tr' ev, answer_unit E tr' ev = None) ->
   forall driver_class,
     EMAIL_REPORTS_WEBDRIVER (cfg E) = driver_class ->
     driver_class = "firefox" \/ driver_class = "chrome" ->
     (answer_loginbox E
        (tr ++ [DriverInit driver_class (webdriver_kwargs (cfg E) driver_class);
                DriverGet (url_for E "Superset.welcome" false 0)]) = Ok false ->
      create_webdriver E tr = (opened driver_class, Ok tt)) /\
     (forall cookies,
        answer_loginbox E
          (tr ++ [DriverInit driver_class (webdriver_kwargs (cfg E) driver_class);
                  DriverGet (url_for E "Superset.welcome" false 0)]) = Ok true ->
        answer_cookies E (opened driver_class) = Ok cookies ->
        create_webdriver E tr
        = (opened driver_class ++ GetAuthCookies :: map AddCookie cookies,
           Ok tt))).
Proof.
  cbv zeta. split.
  - intros Hff Hch. unfold create_webdriver, bind, ask.
    apply String.eqb_neq in Hff, Hch. rewrite Hff, Hch. reflexivity.
  - intros Hquiet driver_class Hcfg Hclass.
    assert (Hstart :
              create_webdriver E tr
              = (call_unit (DriverInit driver_class (webdriver_kwargs (cfg E) driver_class)) >>>
                 let! welcome_url := _get_url_path "Superset.welcome" false 0 in
                 call_unit (DriverGet welcome_url) >>>
                 let! elements :=
                   (fun E tr => (tr ++ [FindElementsById "loginbox"],
                                 answer_loginbox E tr)) in
                 if negb elements then ret tt
                 else
                   let! cookies := _get_auth_cookies in
                   for_each cookies
                     (fun cookie => call_unit (AddCookie cookie))) E tr).
    { unfold create_webdriver, bind at 1, ask. rewrite Hcfg.
      destruct Hclass as [-> | ->]; reflexivity. }
    rewrite Hstart.
    unfold bind, call_unit, _get_url_path. rewrite !Hquiet.
    rewrite <- ?app_assoc. simpl app.
    split.
    + intros Hbox. rewrite Hbox. simpl. unfold ret.
      rewrite <- ?app_assoc. reflexivity.
    + intros cookies Hbox Hcookies. rewrite Hbox. simpl.
      unfold _get_auth_cookies. rewrite <- ?app_assoc. simpl app.
      rewrite Hcookies.
      rewrite (for_each_map AddCookie cookies), for_each_all_return.
      * rewrite <- ?app_assoc. reflexivity.
      * clear Hcookies. generalize (tr ++
          [DriverInit driver_class (webdriver_kwargs (cfg E) driver_class);
           DriverGet (url_for E "Superset.welcome" false 0);
           FindElementsById "loginbox"; GetAuthCookies]).
        induction cookies as [|cookie cookies IH]; intros t; simpl;
          [reflexivity|]. rewrite Hquiet. apply IH.
Qed.



(** ** Chat delivery, continued *)

(** X15.  A transient failure is recovered: when the first upload raises
    [SlackApiError] and the second, ten seconds later, returns an answer
    with the file handle, [_deliver_slack] returns normally after those two
    attempts. *)
Theorem _deliver_slack_recovers E tr slack_channel subject body file response :
  answer_upload E tr (FilesUpload slack_channel file body subject)
    = Raise SlackApiError ->
  answer_upload E
    (tr ++ [FilesUpload slack_channel file body subject; Sleep 10])
    (FilesUpload slack_channel file body subject) = Ok response ->
  truthy (response_file response) = true ->
  _deliver_slack slack_channel subject body file E tr
  = (tr ++ [FilesUpload slack_channel file body subject; Sleep 10;
            FilesUpload slack_channel file body subject;
            LogInfo ("Sent the report to the slack " +:+ slack_channel)],
     Ok tt).
Proof.
  intros Hfirst Hsecond Hfile.
  unfold _deliver_slack, retry_internal, try_except, bind at 1 2 3.
  unfold _deliver_slack_attempt at 1, files_upload, bind at 1.
  rewrite Hfirst. cbn [is_SlackApiError].
  unfold bind at 1, sleep at 1. unfold bind at 1 2.
  unfold _deliver_slack_attempt at 1, files_upload, bind at 1.
  rewrite <- app_assoc. simpl app. rewrite Hsecond.
  unfold bind, log_info, ret. rewrite Hfile.
  rewrite <- !app_assoc. reflexivity.
Qed.

Lemma _deliver_slack_recovers_witness :
  _deliver_slack "#reports" "[Report] Sales" (explore_markdown "Sales" "u")
    "PNG" (sample_env None no_failure upload_flaky) []
  = ([] ++ [FilesUpload "#reports" "PNG" (explore_markdown "Sales" "u")
              "[Report] Sales"; Sleep 10;
            FilesUpload "#reports" "PNG" (explore_markdown "Sales" "u")
              "[Report] Sales";
            LogInfo ("Sent the report to the slack " +:+ "#reports")],
     Ok tt).
Proof.
  apply (_deliver_slack_recovers (sample_env None no_failure upload_flaky) []
           "#reports" "[Report] Sales" (explore_markdown "Sales" "u") "PNG"
           (mkSlackResponse (Some "F0123") "{ok: true}"));
    reflexivity.
Defined.

(** X16.  Only [SlackApiError] is retried: any other exception of the upload
    leaves [_deliver_slack] after that single attempt, without a sleep. *)
Theorem _deliver_slack_other_errors E tr slack_channel subject body file e :
  answer_upload E tr (FilesUpload slack_channel file body subject) = Raise e ->
  e <> SlackApiError ->
  _deliver_slack slack_channel subject body file E tr
  = (tr ++ [FilesUpload slack_channel file body subject], Raise e).
Proof.
  intros Hanswer Hne. unfold _deliver_slack.
  apply bind_raise. apply retry_internal_not_listed.
  - unfold _deliver_slack_attempt, files_upload, bind. rewrite Hanswer.
    reflexivity.
  - destruct e; try reflexivity. congruence.
Qed.

Lemma _deliver_slack_other_errors_witness :
  _deliver_slack "#reports" "[Report] Sales" (explore_markdown "Sales" "u")
    "PNG"
    (sample_env None no_failure (fun _ _ => Raise (OtherException "Timeout")))
    []
  = ([] ++ [FilesUpload "#reports" "PNG" (explore_markdown "Sales" "u")
              "[Report] Sales"],
     Raise (OtherException "Timeout")).
Proof.
  apply (_deliver_slack_other_errors
           (sample_env None no_failure
              (fun _ _ => Raise (OtherException "Timeout"))) []
           "#reports" "[Report] Sales" (explore_markdown "Sales" "u") "PNG"
           (OtherException "Timeout")); [reflexivity | discriminate].
Defined.

(** ** Report content, continued *)

Lemma split_on_not_nil sep s : split_on sep s <> [].
Proof.
  destruct s as [|c s]; simpl; [discriminate|].
  destruct (Ascii.eqb c sep); [discriminate|].
  destruct (split_on sep s); discriminate.
Qed.

(** A second field exists exactly when the separator occurs. *)
Lemma split_on_second sep s :
  split_on sep s !! 1%nat = None <-> occurs sep s = false.
Proof.
  induction s as [|c s IH]; simpl; [split; reflexivity|].
  destruct (Ascii.eqb c sep); simpl.
  - pose proof (split_on_not_nil sep s) as Hne.
    destruct (split_on sep s); [congruence|]. split; discriminate.
  - pose proof (split_on_not_nil sep s) as Hne.
    destruct (split_on sep s) as [|h t]; [congruence|]. exact IH.
Qed.

(** X17.  In attachment mode [_generate_report_content] always returns and
    makes no call.  In inline mode it returns exactly when the address part
    of [SMTP_MAIL_FROM] contains an at sign, and raises [IndexError]
    otherwise. *)
Theorem _generate_report_content_sender E tr screenshot name url :
  (exists rc,
     _generate_report_content attachment screenshot name url E tr
     = (tr, Ok rc)) /\
  (occurs "@" (snd (parseaddr E (SMTP_MAIL_FROM (cfg E)))) = true ->
   exists rc,
     _generate_report_content inline screenshot name url E tr = (tr, Ok rc)) /\
  (occurs "@" (snd (parseaddr E (SMTP_MAIL_FROM (cfg E)))) = false ->
   _generate_report_content inline screenshot name url E tr
   = (tr, Raise IndexError)).
Proof.
  split; [eexists; reflexivity|].
  unfold _generate_report_content, bind, ask.
  pose proof (split_on_second "@" (snd (parseaddr E (SMTP_MAIL_FROM (cfg E)))))
    as Hsecond.
  destruct (split_on "@" (snd (parseaddr E (SMTP_MAIL_FROM (cfg E)))) !! 1%nat)
    as [domain|].
  - split; [intros _; eexists; reflexivity|].
    intros Hnone. apply Hsecond in Hnone. discriminate.
  - split; [|reflexivity].
    intros Hsome. rewrite (proj1 Hsecond eq_refl) in Hsome. discriminate.
Qed.

Lemma _generate_report_content_sender_witness :
  exists rc,
    _generate_report_content inline "PNG" "Sales" "u"
      (sample_env None no_failure upload_ok) [] = ([], Ok rc).
Proof.
  apply (proj1 (proj2 (_generate_report_content_sender
                         (sample_env None no_failure upload_ok) []
                         "PNG" "Sales" "u"))).
  reflexivity.
Defined.

(** X18.  The failures of [_get_slice_data]: without a session cookie it
    raises [KeyError] before any fetch; a status other than 200 raises
    [URLError] with that status; an empty answer raises [IndexError] in
    inline mode, whereas in attachment mode it is sent as an empty
    attachment. *)
Theorem _get_slice_data_failures E tr slc :
  let slice_url := url_for E "Superset.explore_json" false (slice_pk slc) in
  let link := url_for E "Superset.slice" true (slice_pk slc) in
  (forall mode,
     answer_cookies E tr = Ok [] ->
     _get_slice_data slc mode E tr = (tr ++ [GetAuthCookies], Raise KeyError)) /\
  (forall mode cookies cookie code content,
     answer_cookies E tr = Ok cookies ->
     last cookies = Some cookie ->
     answer_open E (tr ++ [GetAuthCookies]) slice_url cookie
       = Ok (code, content) ->
     (code <> 200 ->
      _get_slice_data slc mode E tr
      = (tr ++ [GetAuthCookies; OpenUrl slice_url cookie],
         Raise (URLError code))) /\
     (code = 200 -> content = "" ->
      _get_slice_data slc inline E tr
      = (tr ++ [GetAuthCookies; OpenUrl slice_url cookie], Raise IndexError) /\
      _get_slice_data slc attachment E tr
      = (tr ++ [GetAuthCookies; OpenUrl slice_url cookie],
         Ok (mkReportContent (explore_link link)
               (Some {[ slice_name slc +:+ ".csv" := "" ]}) None
               (explore_markdown (slice_name slc) link) "")))).
Proof.
  cbv zeta. split.
  - intros mode Hcookies.
    unfold _get_slice_data, bind, _get_url_path, _get_auth_cookies,
      session_cookie.
    rewrite Hcookies. reflexivity.
  - intros mode cookies cookie code content Hcookies Hlast Hopen.
    unfold _get_slice_data, bind, _get_url_path, _get_auth_cookies,
      session_cookie, ret, raise.
    rewrite Hcookies, Hlast, Hopen. cbn [fst snd].
    rewrite <- !app_assoc. simpl app. split.
    + intros Hcode. apply Z.eqb_neq in Hcode. rewrite Hcode. reflexivity.
    + intros -> ->. split; reflexivity.
Qed.

Lemma _get_slice_data_failures_witness :
  _get_slice_data (mkSlice 9 "Revenue") inline unavailable_env []
  = ([] ++ [GetAuthCookies; OpenUrl "Superset.explore_json" "b"],
     Raise (URLError 204)).
Proof.
  apply (proj1 (proj2 (_get_slice_data_failures unavailable_env []
                         (mkSlice 9 "Revenue"))
                  inline ["a"; "b"] "b" 204 "" eq_refl eq_refl eq_refl)).
  discriminate.
Defined.

Lemma split_on_fields sep s field :
  In field (split_on sep s) ->
  occurs sep field = false /\
  forall c, occurs c field = true -> occurs c s = true.
Proof.
  revert field. induction s as [|a s IH]; intros field; simpl.
  - intros [<- | []]. split; [reflexivity | discriminate].
  - destruct (Ascii.eqb a sep) eqn:Ha.
    + intros [<- | Hin].
      * split; [reflexivity | discriminate].
      * destruct (IH field Hin) as [Hsep Hsub]. split; [exact Hsep|].
        intros c Hc. rewrite (Hsub c Hc). apply orb_true_r.
    + pose proof (split_on_not_nil sep s) as Hne.
      destruct (split_on sep s) as [|h t]; [congruence|].
      intros [<- | Hin].
      * destruct (IH h (or_introl eq_refl)) as [Hsep Hsub]. simpl.
        rewrite Ha, Hsep. split; [reflexivity|].
        intros c Hc. apply orb_true_iff in Hc as [Hc | Hc].
        -- rewrite Hc. reflexivity.
        -- rewrite (Hsub c Hc). apply orb_true_r.
      * destruct (IH field (or_intror Hin)) as [Hsep Hsub].
        split; [exact Hsep|].
        intros c Hc. rewrite (Hsub c Hc). apply orb_true_r.
Qed.

Lemma splitlines_lines_bounded : forall n s line,
  (String.length s <= n)%nat ->
  In line (splitlines s) ->
  occurs LF line = false /\ occurs CR line = false.
Proof.
  induction n as [|n IH]; intros s line Hlen.
  - destruct s; simpl in *; [intros [] | lia].
  - destruct s as [|a s]; [intros []|]. simpl in Hlen.
    cbn [splitlines].
    destruct (Ascii.eqb a LF) eqn:Hlf.
    { intros [<- | Hin]; [split; reflexivity|].
      apply (IH s line); [lia | exact Hin]. }
    destruct (Ascii.eqb a CR) eqn:Hcr.
    { destruct s as [|b s'].
      - intros [<- | []]. split; reflexivity.
      - destruct (Ascii.eqb b LF).
        + intros [<- | Hin]; [split; reflexivity|].
          apply (IH s' line); [simpl in Hlen; lia | exact Hin].
        + intros [<- | Hin]; [split; reflexivity|].
          apply (IH (String b s') line); [lia | exact Hin]. }
    pose proof (IH s) as IHs.
    destruct (splitlines s) as [|h t].
    + intros [<- | []]. simpl. rewrite Hlf, Hcr. split; reflexivity.
    + intros [<- | Hin].
      * destruct (IHs h ltac:(lia) (or_introl eq_refl)) as [H1 H2].
        simpl. rewrite Hlf, Hcr, H1, H2. split; reflexivity.
      * apply (IHs line); [lia | right; exact Hin].
Qed.

(** X19.  The rows [_get_slice_data] reads out of the fetched bytes are made
    of cells that contain no comma, no line feed and no carriage return. *)
Theorem csv_cells_have_no_separator content row cell :
  In row (map (split_on ",") (splitlines content)) ->
  In cell row ->
  occurs "," cell = false /\ occurs LF cell = false /\ occurs CR cell = false.
Proof.
  intros Hrow Hcell. apply in_map_iff in Hrow as (line & <- & Hline).
  destruct (splitlines_lines_bounded _ content line (le_n _) Hline)
    as [Hlf Hcr].
  destruct (split_on_fields "," line cell Hcell) as [Hsep Hsub].
  split; [exact Hsep|]. split.
  - destruct (occurs LF cell) eqn:H; [|reflexivity].
    rewrite (Hsub LF H) in Hlf. discriminate.
  - destruct (occurs CR cell) eqn:H; [|reflexivity].
    rewrite (Hsub CR H) in Hcr. discriminate.
Qed.

Lemma csv_cells_have_no_separator_witness :
  occurs "," "total" = false /\ occurs LF "total" = false /\
  occurs CR "total" = false.
Proof.
  apply (csv_cells_have_no_separator sample_csv ["day"; "total"] "total").
  - left. reflexivity.
  - right. left. reflexivity.
Defined.

(** X20.  Splitting a line at the commas loses nothing: the cells joined
    again with commas are the line, and there is always at least one cell,
    so an empty line still gives one (empty) cell. *)
Theorem split_on_join sep s :
  join (String sep "") (split_on sep s) = s /\
  split_on sep s <> [].
Proof.
  split; [|apply split_on_not_nil].
  induction s as [|a s IH]; [reflexivity|]. simpl split_on.
  pose proof (split_on_not_nil sep s) as Hne.
  destruct (Ascii.eqb_spec a sep) as [-> | Hneq].
  - destruct (split_on sep s) as [|h t]; [congruence|].
    change (join (String sep "") ("" :: h :: t))
      with (String sep (join (String sep "") (h :: t))).
    rewrite IH. reflexivity.
  - destruct (split_on sep s) as [|h t]; [congruence|].
    destruct t as [|h' t].
    + simpl in *. rewrite IH. reflexivity.
    + change (join (String sep "") (String a h :: h' :: t))
        with (String a (join (String sep "") (h :: h' :: t))).
      rewrite IH. reflexivity.
Qed.

(** ** The celery job, continued *)

(** X21.  A job whose target cannot be worked out fails before a driver is
    launched or anything is sent: an active schedule of an unknown report
    type raises [RuntimeError] right after the log line, a slice schedule of
    an unknown format raises it right after the slice query, and a dashboard
    the store does not return ends [deliver_dashboard] with the store's
    exception. *)
Theorem unresolved_target_fails_early E tr id recipients slack_channel
    delivery_type deliver_as_group :
  (forall schedule,
     answer_schedule E tr unknown_type id = Ok (Some schedule) ->
     active schedule = true ->
     exists msg,
       schedule_email_report unknown_type id recipients slack_channel E tr
       = (tr ++ [QuerySchedule unknown_type id; LogInfo msg],
          Raise (RuntimeError "Unknown report type"))) /\
  (forall slc,
     answer_slice E tr id = Ok slc ->
     deliver_slice id recipients slack_channel delivery_type unknown_format
       deliver_as_group E tr
     = (tr ++ [QuerySlice id],
        Raise (RuntimeError "Unknown email report format"))) /\
  (forall e,
     answer_dashboard E tr id = Raise e ->
     deliver_dashboard id recipients slack_channel delivery_type
       deliver_as_group E tr
     = (tr ++ [QueryDashboard id], Raise e)).
Proof.
  split; [|split].
  - intros schedule Hsome Hactive. eexists.
    unfold schedule_email_report, bind at 1. rewrite Hsome, Hactive.
    cbn [negb]. cbv zeta. unfold bind, log_info, raise.
    rewrite <- app_assoc. reflexivity.
  - intros slc Hslc. unfold deliver_slice, bind, ask, raise.
    rewrite Hslc. reflexivity.
  - intros e He. unfold deliver_dashboard, bind at 1 2, ask.
    rewrite He. reflexivity.
Qed.

Lemma unresolved_target_fails_early_witness :
  deliver_slice 9 (Some "ann@example.org") None attachment unknown_format
    false (sample_env None no_failure upload_ok) []
  = ([] ++ [QuerySlice 9], Raise (RuntimeError "Unknown email report format")).
Proof.
  apply (proj1 (proj2 (unresolved_target_fails_early
                         (sample_env None no_failure upload_ok) [] 9
                         (Some "ann@example.org") None attachment false))
           (mkSlice 9 "Revenue")).
  reflexivity.
Defined.

(** ** A delivery from end to end *)

Lemma quiet_all_return E :
  (forall tr ev, answer_unit E tr ev = None) ->
  forall evs tr, all_return E tr evs = true.
Proof.
  intros Hquiet. induction evs as [|ev evs IH]; intros tr; simpl;
    [reflexivity|]. rewrite Hquiet. apply IH.
Qed.

Lemma _deliver_slack_first_try E tr slack_channel subject body file response :
  answer_upload E tr (FilesUpload slack_channel file body subject)
    = Ok response ->
  truthy (response_file response) = true ->
  _deliver_slack slack_channel subject body file E tr
  = (tr ++ [FilesUpload slack_channel file body subject;
            LogInfo ("Sent the report to the slack " +:+ slack_channel)],
     Ok tt).
Proof.
  intros Hanswer Hfile.
  unfold _deliver_slack, retry_internal, try_except, bind at 1 2 3.
  unfold _deliver_slack_attempt, files_upload, bind at 1.
  rewrite Hanswer. unfold bind, log_info, ret. rewrite Hfile.
  rewrite <- app_assoc. reflexivity.
Qed.

Ltac run_step tac :=
  etransitivity; [eapply bind_ok; tac|]; cbv beta.

(** X22.  A dashboard delivery in attachment mode in which no call fails:
    the dashboard is looked up, one driver is launched, sized and pointed at
    the dashboard, the element is found at the first attempt and captured,
    the driver is closed and quit, and only then the e-mails go out (one to
    the whole recipient string, or one per parsed address) followed by the
    single chat upload; all of them carry the same screenshot, subject and
    link. *)
Theorem deliver_dashboard_success E tr id recipients slack_channel
    deliver_as_group driver_class dashboard png response :
  (forall tr' ev, answer_unit E tr' ev = None) ->
  (forall tr', answer_loginbox E tr' = Ok false) ->
  (forall tr', answer_bytes E tr' ScreenshotAsPng = Ok png) ->
  (forall tr' ev, answer_upload E tr' ev = Ok response) ->
  truthy (response_file response) = true ->
  answer_dashboard E tr id = Ok dashboard ->
  EMAIL_REPORTS_WEBDRIVER (cfg E) = driver_class ->
  driver_class = "firefox" \/ driver_class = "chrome" ->
  recipients <> "" -> slack_channel <> "" ->
  let url := url_for E "Superset.dashboard" false (dashboard_pk dashboard) in
  let link := url_for E "Superset.dashboard" true (dashboard_pk dashboard) in
  let subject :=
    EMAIL_REPORTS_SUBJECT_PREFIX (cfg E) +:+ " " +:+ dashboard_title dashboard in
  deliver_dashboard id (Some recipients) (Some slack_channel) attachment
    deliver_as_group E tr
  = (tr ++ [QueryDashboard id; DriverInit driver_class (webdriver_kwargs (cfg E) driver_class);
            DriverGet (url_for E "Superset.welcome" false 0);
            FindElementsById "loginbox";
            SetWindowSize (fst (WEBDRIVER_WINDOW_dashboard (cfg E)))
              (snd (WEBDRIVER_WINDOW_dashboard (cfg E)));
            DriverGet url; Sleep (EMAIL_PAGE_RENDER_WAIT (cfg E));
            FindElementByClassName "grid-container"; ScreenshotAsPng;
            DriverClose; DriverQuit]
        ++ map (email_call E subject (explore_link link)
                  (Some {[ "screenshot.png" := png ]}) None)
             (if deliver_as_group then [recipients]
              else get_email_address_list E recipients)
        ++ [FilesUpload slack_channel png
              (explore_markdown (dashboard_title dashboard) link) subject;
            LogInfo ("Sent the report to the slack " +:+ slack_channel)],
     Ok tt).
Proof.
  intros Hquiet Hbox Hpng Hup Hfile Hdash Hcfg Hclass Hr Hs.
  cbv zeta.
  assert (Hexc : only_Exceptions E).
  { intros t ev e He. rewrite Hquiet in He. discriminate. }
  unfold deliver_dashboard. unfold bind at 1, ask.
  run_step ltac:(rewrite Hdash; reflexivity).
  run_step ltac:(reflexivity).
  run_step ltac:(reflexivity).
  run_step ltac:(apply (proj1 (proj2 (create_webdriver_run E _) Hquiet
                                 driver_class Hcfg Hclass)); apply Hbox).
  run_step ltac:(apply call_unit_ok, Hquiet).
  run_step ltac:(apply call_unit_ok, Hquiet).
  run_step ltac:(reflexivity).
  run_step ltac:(unfold retry_call, retry_internal, try_except, bind, call_unit;
                 rewrite Hquiet; reflexivity).
  run_step ltac:(unfold take_screenshot, try_finally, try_except, call_bytes;
                 rewrite Hpng;
                 rewrite (proj1 (destroy_webdriver_run E _ Hexc)
                            (Hquiet _ _));
                 reflexivity).
  run_step ltac:(reflexivity).
  cbn [body data_ images slack_message slack_attachment].
  destruct recipients as [|r0 recipients']; [congruence|].
  destruct slack_channel as [|s0 slack_channel']; [congruence|].
  cbn [when_truthy].
  run_step ltac:(rewrite _deliver_email_run;
                 apply for_each_all_return, quiet_all_return, Hquiet).
  rewrite (_deliver_slack_first_try E _ _ _ _ _ response (Hup _ _) Hfile).
  repeat rewrite <- app_assoc. reflexivity.
Qed.

Lemma deliver_dashboard_success_witness :
  deliver_dashboard 7 (Some "ann@example.org,bob@example.org")
    (Some "#reports") attachment false
    (sample_env None no_failure upload_ok) []
  = ([] ++ [QueryDashboard 7; DriverInit "firefox" (webdriver_kwargs sample_config "firefox");
            DriverGet "http://0.0.0.0:8080/Superset.welcome";
            FindElementsById "loginbox"; SetWindowSize 1600 2000;
            DriverGet "http://0.0.0.0:8080/Superset.dashboard"; Sleep 30;
            FindElementByClassName "grid-container"; ScreenshotAsPng;
            DriverClose; DriverQuit]
        ++ map (email_call (sample_env None no_failure upload_ok)
                  "[Report] Sales"
                  (explore_link "https://reports.example.org/Superset.dashboard")
                  (Some {[ "screenshot.png" := "PNG" ]}) None)
             ["ann@example.org"; "bob@example.org"]
        ++ [FilesUpload "#reports" "PNG"
              (explore_markdown "Sales"
                 "https://reports.example.org/Superset.dashboard")
              "[Report] Sales";
            LogInfo ("Sent the report to the slack " +:+ "#reports")],
     Ok tt).
Proof.
  apply (deliver_dashboard_success (sample_env None no_failure upload_ok) [] 7
           "ann@example.org,bob@example.org" "#reports" false "firefox"
           (mkDashboard 7 "Sales") "PNG"
           (mkSlackResponse (Some "F0123") "{ok: true}"));
    first [reflexivity | discriminate | (intros; reflexivity)
          | (left; reflexivity)].
Defined.

(** ** Report content: what is built, and when *)










Example build_tabular_inline :
  build inline (tabular (mkSlice 9 "Revenue"))
    (sample_env None no_failure upload_ok) []
  = ([GetAuthCookies;
      OpenUrl "http://0.0.0.0:8080/Superset.explore_json" "s3ss10n"],
     Ok (mkReportContent
           (slice_data_html ["day"; "total"] [["mon"; "3"]] "Revenue"
              "https://reports.example.org/Superset.slice")
           None None
           (explore_markdown "Revenue"
              "https://reports.example.org/Superset.slice")
           sample_csv)).
Proof. reflexivity. Qed.
